(** * The statistics sensor of [homeassistant/components/statistics/sensor.py]

    A shallow embedding of [StatisticsSensor]: the two bounded deques
    [states] and [ages], the ingestion path [_add_state_to_queue], the age
    purge [_purge_old_states], the recompute cycle [async_update] and the
    characteristic functions [_stat_*] / [_stat_binary_*].

    Module [Tibber] embeds, of [homeassistant/components/tibber/sensor.py],
    the real-time coordinator and sensor and the loop of
    [_insert_statistics].

    Conventions of the model.
    - A [datetime] is the number of microseconds since the epoch and a
      [timedelta] a number of microseconds, both in [Z]; [total_seconds] is
      the exact quotient by 10^6.
    - A Python [float] is idealised as an exact rational ([Q]): rounding
      error, infinities and NaN are outside the model.  Float division by
      zero raises [ZeroDivisionError], as in Python.
    - A Python method that mutates [self] and may raise is a function from
      the sensor to an outcome and the sensor it leaves behind: the
      mutations made before a [raise] stay in place. *)

From Stdlib Require Import ZArith QArith Qround Qabs Lia Lqa.
From stdpp Require Import base option list sorting gmap strings pretty.

Local Open Scope Z_scope.

(** ** Exceptions and outcomes *)

Inductive exn : Type :=
  | ZeroDivisionError
  | IndexError
  | AssertionError
  | TypeError
  | ValueError
  | AttributeError
  | UnboundLocalError
  | StatisticsError
  | ValueInvalid.

Inductive result (A : Type) : Type :=
  | Ok (a : A)
  | Raise (e : exn).
Arguments Ok {A} a.
Arguments Raise {A} e.

Definition rbind {A B} (r : result A) (k : A → result B) : result B :=
  match r with
  | Ok a => k a
  | Raise e => Raise e
  end.

Notation "x ←! r ; k" := (rbind r (λ x, k))
  (at level 100, r at next level, k at level 200, right associativity).

(** ** Python values

    [StateType | datetime]: what a characteristic returns and what the
    attribute dictionary holds. *)

Inductive pyval : Type :=
  | PNone
  | PBool (b : bool)
  | PInt (n : Z)
  | PFloat (q : Q)
  | PStr (s : string)
  | PDatetime (t : Z).

Definition is_none (v : pyval) : bool :=
  match v with PNone => true | _ => false end.

(** ** Arithmetic builtins *)

(** Float [a / b]. *)
Definition py_truediv (a b : Q) : result Q :=
  if Qeq_bool b 0 then Raise ZeroDivisionError else Ok (a / b)%Q.

(** Float [a < b]. *)
Definition Qlt_bool (a b : Q) : bool := negb (Qle_bool b a).

(** [timedelta.total_seconds()]. *)
Definition total_seconds (td : Z) : Q := (inject_Z td / inject_Z 1000000)%Q.

(** The nearest integer, ties going to the even one. *)
Definition round_half_even (q : Q) : Z :=
  let f := Qfloor q in
  match (q - inject_Z f ?= 1 # 2)%Q with
  | Lt => f
  | Gt => f + 1
  | Eq => if Z.even f then f else f + 1
  end.

(** [round(x, ndigits)] on a float. *)
Definition round_float (q : Q) (ndigits : Z) : Q :=
  (inject_Z (round_half_even (q * 10 ^ ndigits)) / 10 ^ ndigits)%Q.

(** [round(n, ndigits)] on an int: the int itself unless [ndigits] is
    negative. *)
Definition round_int (n : Z) (ndigits : Z) : Z :=
  if 0 <=? ndigits then n
  else let p := 10 ^ (- ndigits) in round_half_even (inject_Z n / inject_Z p) * p.

(** [round(value, ndigits)]; a [bool] is an [int]. *)
Definition py_round (v : pyval) (ndigits : Z) : result pyval :=
  match v with
  | PFloat q => Ok (PFloat (round_float q ndigits))
  | PInt n => Ok (PInt (round_int n ndigits))
  | PBool b => Ok (PInt (round_int (if b then 1 else 0) ndigits))
  | PNone | PStr _ | PDatetime _ => Raise TypeError
  end.

(** [int(x)] on a float truncates towards zero. *)
Definition Qtruncate (q : Q) : Z :=
  if Qle_bool 0 q then Qfloor q else Qceiling q.

Definition py_int (v : pyval) : result pyval :=
  match v with
  | PFloat q => Ok (PInt (Qtruncate q))
  | PInt n => Ok (PInt n)
  | PBool b => Ok (PInt (if b then 1 else 0))
  | PNone | PStr _ | PDatetime _ => Raise TypeError
  end.

(** ** Sequences *)

(** [l[i]] for a non-negative index. *)
Definition getitem {A} (l : list A) (i : nat) : result A :=
  match l !! i with
  | Some x => Ok x
  | None => Raise IndexError
  end.

(** [l[-1]]. *)
Definition getitem_last {A} (l : list A) : result A :=
  match last l with
  | Some x => Ok x
  | None => Raise IndexError
  end.

(** [for i in idx: acc = body(i, acc)], leaving at the first exception. *)
Fixpoint for_each {A S} (idx : list A) (acc : S) (body : A → S → result S)
    : result S :=
  match idx with
  | [] => Ok acc
  | i :: idx' => acc' ←! body i acc; for_each idx' acc' body
  end.

(** [range(a, b)] over naturals. *)
Definition range (a b : nat) : list nat := seq a (b - a).

(** [deque(maxlen=n).append(x)]: the oldest entries fall off the left. *)
Definition deque_append {A} (maxlen : nat) (l : list A) (x : A) : list A :=
  let l' := l ++ [x] in drop (length l' - maxlen) l'.

(** [sum(l)]. *)
Definition Qsum (l : list Q) : Q := fold_left Qplus l 0%Q.

(** [max(l)] and [min(l)]: the first of the largest (smallest) entries; an
    empty sequence is a [ValueError]. *)
Definition py_max (l : list Q) : result Q :=
  match l with
  | [] => Raise ValueError
  | x :: l' => Ok (fold_left (λ m y, if Qle_bool y m then m else y) l' x)
  end.

Definition py_min (l : list Q) : result Q :=
  match l with
  | [] => Raise ValueError
  | x :: l' => Ok (fold_left (λ m y, if Qle_bool m y then m else y) l' x)
  end.

(** [sorted(l)]: stable, ascending. *)
Fixpoint insert_sorted (x : Q) (l : list Q) : list Q :=
  match l with
  | [] => [x]
  | y :: l' => if Qle_bool x y then x :: l else y :: insert_sorted x l'
  end.

Definition sorted (l : list Q) : list Q := foldr insert_sorted [] l.

(** ** The [statistics] module of the Python library, in exact arithmetic *)

Inductive quantile_method : Type := exclusive | inclusive.

Module statistics.

Definition mean (data : list Q) : result Q :=
  let n := length data in
  if (n <? 1)%nat then Raise StatisticsError
  else Ok (Qsum data / inject_Z (Z.of_nat n))%Q.

(** [_ss]: the sum of squared deviations from the mean, less the
    correction term, which is zero in exact arithmetic. *)
Definition _ss (data : list Q) : result Q :=
  c ←! mean data;
  let total := Qsum (map (λ x, (x - c) ^ 2)%Q data) in
  let total2 := Qsum (map (λ x, x - c)%Q data) in
  Ok (total - total2 ^ 2 / inject_Z (Z.of_nat (length data)))%Q.

Definition variance (data : list Q) : result Q :=
  let n := length data in
  if (n <? 2)%nat then Raise StatisticsError
  else ss ←! _ss data; Ok (ss / inject_Z (Z.of_nat n - 1))%Q.

Definition median (data : list Q) : result Q :=
  let data := sorted data in
  let n := length data in
  if (n =? 0)%nat then Raise StatisticsError
  else if (n mod 2 =? 1)%nat then getitem data (n / 2)
  else
    let i := (n / 2)%nat in
    a ←! getitem data (i - 1); b ←! getitem data i;
    Ok ((a + b) / 2)%Q.

(** [(lo * (n - delta) + hi * delta) / n]. *)
Definition interpolated (lo hi : Q) (n delta : Z) : Q :=
  ((lo * inject_Z (n - delta) + hi * inject_Z delta) / inject_Z n)%Q.

Definition quantiles (data : list Q) (n : Z) (method : quantile_method)
    : result (list Q) :=
  if n <? 1 then Raise StatisticsError
  else
    let data := sorted data in
    let ld := Z.of_nat (length data) in
    if ld <? 2 then Raise StatisticsError
    else
      let at_ (j : Z) := nth (Z.to_nat j) data 0%Q in
      match method with
      | inclusive =>
          let m := ld - 1 in
          Ok (map (λ i,
                let j := (i * m) `div` n in
                let delta := (i * m) `mod` n in
                interpolated (at_ j) (at_ (j + 1)) n delta)
                (seqZ 1 (n - 1)))
      | exclusive =>
          let m := ld + 1 in
          Ok (map (λ i,
                let j := (i * m) `div` n in
                let j := if j <? 1 then 1
                         else if ld - 1 <? j then ld - 1 else j in
                let delta := i * m - j * n in
                interpolated (at_ (j - 1)) (at_ j) n delta)
                (seqZ 1 (n - 1)))
      end.

End statistics.

(** ** Constants of the integration *)

(** Keys of the attribute dictionary. *)
Definition STAT_AGE_COVERAGE_RATIO : string := "age_coverage_ratio".
Definition STAT_BUFFER_USAGE_RATIO : string := "buffer_usage_ratio".
Definition STAT_SOURCE_VALUE_VALID : string := "source_value_valid".

(** The characteristic names: the [STAT_*] string constants, one
    constructor each. *)
Inductive characteristic : Type :=
  | STAT_AVERAGE_LINEAR
  | STAT_AVERAGE_STEP
  | STAT_AVERAGE_TIMELESS
  | STAT_CHANGE
  | STAT_CHANGE_SAMPLE
  | STAT_CHANGE_SECOND
  | STAT_COUNT
  | STAT_DATETIME_NEWEST
  | STAT_DATETIME_OLDEST
  | STAT_DISTANCE_95P
  | STAT_DISTANCE_99P
  | STAT_DISTANCE_ABSOLUTE
  | STAT_MEAN
  | STAT_MEDIAN
  | STAT_NOISINESS
  | STAT_QUANTILES
  | STAT_STANDARD_DEVIATION
  | STAT_TOTAL
  | STAT_VALUE_MAX
  | STAT_VALUE_MIN
  | STAT_VARIANCE.

Global Instance characteristic_eq_dec : EqDecision characteristic.
Proof. solve_decision. Defined.

Definition STATS_NUMERIC_SUPPORT : list characteristic :=
  [ STAT_AVERAGE_LINEAR; STAT_AVERAGE_STEP; STAT_AVERAGE_TIMELESS;
    STAT_CHANGE_SAMPLE; STAT_CHANGE_SECOND; STAT_CHANGE; STAT_COUNT;
    STAT_DATETIME_NEWEST; STAT_DATETIME_OLDEST; STAT_DISTANCE_95P;
    STAT_DISTANCE_99P; STAT_DISTANCE_ABSOLUTE; STAT_MEAN; STAT_MEDIAN;
    STAT_NOISINESS; STAT_QUANTILES; STAT_STANDARD_DEVIATION; STAT_TOTAL;
    STAT_VALUE_MAX; STAT_VALUE_MIN; STAT_VARIANCE ].

Definition STATS_BINARY_SUPPORT : list characteristic :=
  [ STAT_AVERAGE_STEP; STAT_AVERAGE_TIMELESS; STAT_COUNT; STAT_MEAN ].

Definition STATS_NOT_A_NUMBER : list characteristic :=
  [ STAT_DATETIME_NEWEST; STAT_DATETIME_OLDEST; STAT_QUANTILES ].

Definition STATS_DATETIME : list characteristic :=
  [ STAT_DATETIME_NEWEST; STAT_DATETIME_OLDEST ].

(** [c in tbl]. *)
Definition member (c : characteristic) (tbl : list characteristic) : bool :=
  bool_decide (c ∈ tbl).

(** [valid_state_characteristic_configuration]: the characteristic defaults
    to [count] for a binary source and to [mean] otherwise, and has to be
    supported for the kind of the source. *)
Definition valid_state_characteristic_configuration (binary : bool)
    (configured : option characteristic) : result characteristic :=
  let c := match configured with
           | Some c => c
           | None => if binary then STAT_COUNT else STAT_MEAN
           end in
  if binary && negb (member c STATS_BINARY_SUPPORT)
     || negb binary && negb (member c STATS_NUMERIC_SUPPORT)
  then Raise ValueInvalid
  else Ok c.

(** Modelled from the spec: [STATE_UNAVAILABLE] of [homeassistant.const],
    which is not among the sources; the spec names the signal
    "unavailable". *)
Definition STATE_UNAVAILABLE : string := "unavailable".

(** Modelled from the spec: [STATE_UNKNOWN] of [homeassistant.const], which
    is not among the sources; the spec names the signal "unknown". *)
Definition STATE_UNKNOWN : string := "unknown".

(** ** Data model *)

(** An entry of [states]: [deque[float | bool]]. *)
Inductive sample : Type :=
  | SFloat (q : Q)
  | SBool (b : bool).

(** A sample in arithmetic: [True] is 1 and [False] is 0. *)
Definition num (x : sample) : Q :=
  match x with
  | SFloat q => q
  | SBool b => if b then 1%Q else 0%Q
  end.

(** [x is True]. *)
Definition is_True (x : sample) : bool :=
  match x with SBool true => true | _ => false end.

(** [x == True]. *)
Definition eq_True (x : sample) : bool :=
  match x with
  | SBool b => b
  | SFloat q => Qeq_bool q 1
  end.

(** A state report of the source entity ([homeassistant.core.State]): its
    [state] string, [last_updated] and the [unit_of_measurement] attribute. *)
Record State : Type := {
  state : option string;
  last_updated : Z;
  unit_of_measurement : option string
}.

(** The arguments of [StatisticsSensor.__init__] the engine reads; they are
    never assigned again. *)
Record config : Type := {
  is_binary : bool;
  _state_characteristic : characteristic;
  _samples_max_buffer_size : nat;
  _samples_max_age : option Z;
  _precision : Z;
  _quantile_intervals : Z;
  _quantile_method : quantile_method
}.

(** The mutable part of a [StatisticsSensor]. [_update_listener] holds the
    instant of the pending wake-up, if any. *)
Record sensor : Type := {
  cfg : config;
  _value : pyval;
  _unit_of_measurement : option string;
  _available : bool;
  states : list sample;
  ages : list Z;
  attributes : gmap string pyval;
  _update_listener : option Z
}.

Definition set_value (v : pyval) (s : sensor) : sensor :=
  {| cfg := cfg s; _value := v;
     _unit_of_measurement := _unit_of_measurement s;
     _available := _available s; states := states s; ages := ages s;
     attributes := attributes s; _update_listener := _update_listener s |}.

Definition set_unit_of_measurement (u : option string) (s : sensor) : sensor :=
  {| cfg := cfg s; _value := _value s; _unit_of_measurement := u;
     _available := _available s; states := states s; ages := ages s;
     attributes := attributes s; _update_listener := _update_listener s |}.

Definition set_available (b : bool) (s : sensor) : sensor :=
  {| cfg := cfg s; _value := _value s;
     _unit_of_measurement := _unit_of_measurement s;
     _available := b; states := states s; ages := ages s;
     attributes := attributes s; _update_listener := _update_listener s |}.

Definition set_states (l : list sample) (s : sensor) : sensor :=
  {| cfg := cfg s; _value := _value s;
     _unit_of_measurement := _unit_of_measurement s;
     _available := _available s; states := l; ages := ages s;
     attributes := attributes s; _update_listener := _update_listener s |}.

Definition set_ages (l : list Z) (s : sensor) : sensor :=
  {| cfg := cfg s; _value := _value s;
     _unit_of_measurement := _unit_of_measurement s;
     _available := _available s; states := states s; ages := l;
     attributes := attributes s; _update_listener := _update_listener s |}.

(** [self.attributes[key] = v]. *)
Definition set_attribute (key : string) (v : pyval) (s : sensor) : sensor :=
  {| cfg := cfg s; _value := _value s;
     _unit_of_measurement := _unit_of_measurement s;
     _available := _available s; states := states s; ages := ages s;
     attributes := <[key := v]> (attributes s);
     _update_listener := _update_listener s |}.

Definition set_update_listener (l : option Z) (s : sensor) : sensor :=
  {| cfg := cfg s; _value := _value s;
     _unit_of_measurement := _unit_of_measurement s;
     _available := _available s; states := states s; ages := ages s;
     attributes := attributes s; _update_listener := l |}.

(** The published snapshot: [native_value], [native_unit_of_measurement],
    [available] and [extra_state_attributes], which leaves out the
    attributes that are [None]. *)
Record snapshot : Type := {
  native_value : pyval;
  native_unit_of_measurement : option string;
  available : bool;
  extra_state_attributes : gmap string pyval
}.

Definition snapshot_of (s : sensor) : snapshot :=
  {| native_value := _value s;
     native_unit_of_measurement := _unit_of_measurement s;
     available := _available s;
     extra_state_attributes :=
       filter (λ kv, is_none kv.2 = false) (attributes s) |}.

(** ** The Python runtime *)

(** Builtins of the Python runtime the sensor calls: [math.sqrt] (through
    [statistics.stdev]), [float(str)], with [None] standing for its
    [ValueError], and [str] of a list of floats. *)
Class Runtime : Type := {
  math_sqrt : Q → Q;
  py_float : string → option Q;
  py_str : list Q → string
}.

(** ** A runtime to evaluate the model on *)

(** [float] on an unsigned decimal integer. *)
Fixpoint digits (s : string) (acc : Z) : option Z :=
  match s with
  | EmptyString => Some acc
  | String c s' =>
      let d := Z.of_N (Ascii.N_of_ascii c) in
      if (48 <=? d) && (d <=? 57) then digits s' (10 * acc + (d - 48)) else None
  end.

Definition float_of_digits (s : string) : option Q :=
  match s with
  | EmptyString => None
  | _ => inject_Z <$> digits s 0
  end.

(** The square root of a non-negative rational, rounded down on the
    numerator. *)
Definition sqrt_floor (q : Q) : Q :=
  Z.sqrt (Qnum q * Zpos (Qden q)) # Qden q.

(** A list of rationals as text, entries written [num/den]. *)
Definition str_of_rationals (l : list Q) : string :=
  "[" +:+ String.concat ", "
            ((λ q, pretty (Qnum q) +:+ "/" +:+ pretty (Zpos (Qden q))) <$> l)
      +:+ "]".

Definition eval_runtime : Runtime :=
  {| math_sqrt := sqrt_floor;
     py_float := float_of_digits;
     py_str := str_of_rationals |}.

(** A sensor as [__init__] leaves it, but for the given buffer. *)
Definition sensor_with (c : config) (xs : list sample) (ts : list Z) : sensor :=
  {| cfg := c; _value := PNone; _unit_of_measurement := None;
     _available := false; states := xs; ages := ts;
     attributes := <[STAT_AGE_COVERAGE_RATIO := PNone]>
                   (<[STAT_BUFFER_USAGE_RATIO := PNone]>
                   (<[STAT_SOURCE_VALUE_VALID := PNone]> ∅));
     _update_listener := None |}.

(** A configuration with the schema defaults: buffer of 20, precision 2,
    4 quantile intervals, exclusive method. *)
Definition config_of (binary : bool) (c : characteristic) (max_age : option Z)
    : config :=
  {| is_binary := binary; _state_characteristic := c;
     _samples_max_buffer_size := 20; _samples_max_age := max_age;
     _precision := 2; _quantile_intervals := 4;
     _quantile_method := exclusive |}.

(** A reading of [st] in watts, updated at second [sec]. *)
Definition reading (st : string) (sec : Z) : State :=
  {| state := Some st; last_updated := sec * 1000000;
     unit_of_measurement := Some "W" |}.

(** * The Tibber sensors of [homeassistant/components/tibber/sensor.py]

    The real-time coordinator ([get_live_measurement], [_add_sensors]), the
    real-time sensor ([_handle_coordinator_update]) and the loop of
    [_insert_statistics] that turns hourly data into statistics rows.  The
    data of the Tibber API are JSON values. *)

Module Tibber.

Inductive error : Type :=
  | KeyError
  | TypeError
  | AttributeError.

Inductive outcome (A : Type) : Type :=
  | Returns (a : A)
  | Raises (e : error).
Arguments Returns {A} a.
Arguments Raises {A} e.

(** A decoded JSON value; [JNull] is [None]. *)
#[local] Unset Elimination Schemes.
Inductive json : Type :=
  | JNull
  | JBool (b : bool)
  | JNum (q : Q)
  | JStr (s : string)
  | JList (l : list json)
  | JDict (d : list (string * json)).
#[local] Set Elimination Schemes.

(** [d[key]] of a dict, [None] when the key is missing. *)
Fixpoint item (d : list (string * json)) (key : string) : option json :=
  match d with
  | [] => None
  | (k, v) :: d' => if bool_decide (k = key) then Some v else item d' key
  end.

(** [d.get(key)]. *)
Definition get (d : list (string * json)) (key : string) : json :=
  default JNull (item d key).

(** [bool(v)]. *)
Definition truthy (v : json) : bool :=
  match v with
  | JNull => false
  | JBool b => b
  | JNum q => negb (Qeq_bool q 0)
  | JStr s => negb (bool_decide (s = ""))
  | JList l => negb (bool_decide (l = []))
  | JDict d => negb (bool_decide (d = []))
  end.

(** The value as a number in arithmetic; a [bool] is an [int]. *)
Definition number (v : json) : option Q :=
  match v with
  | JNum q => Some q
  | JBool b => Some (if b then 1 else 0)%Q
  | _ => None
  end.

(** A timezone-aware [datetime]: the instant in microseconds since the epoch
    and the offset of its timezone from UTC, in microseconds. *)
Record datetime : Type := {
  instant : Z;
  utcoffset : Z
}.

Definition microseconds_per_hour : Z := 3600 * 1000000.
Definition microseconds_per_day : Z := 24 * microseconds_per_hour.

(** The microseconds since local midnight. *)
Definition time_of_day (t : datetime) : Z :=
  (instant t + utcoffset t) `mod` microseconds_per_day.

(** [t.hour]. *)
Definition hour (t : datetime) : Z := time_of_day t `div` microseconds_per_hour.

(** [dt_util.as_utc(t.replace(hour=0, minute=0, second=0, microsecond=0))],
    as an instant. *)
Definition midnight_utc (t : datetime) : Z := instant t - time_of_day t.

(** ** The real-time coordinator *)

(** An entry of [RT_SENSORS]: the [key] and the [name] of the description. *)
Record description : Type := {
  key : string;
  name : string
}.

Definition RT_SENSORS : list description :=
  [ {| key := "averagePower"; name := "average power" |};
    {| key := "power"; name := "power" |};
    {| key := "powerProduction"; name := "power production" |};
    {| key := "minPower"; name := "min power" |};
    {| key := "maxPower"; name := "max power" |};
    {| key := "accumulatedConsumption"; name := "accumulated consumption" |};
    {| key := "accumulatedConsumptionLastHour";
       name := "accumulated consumption current hour" |};
    {| key := "estimatedHourConsumption";
       name := "Estimated consumption current hour" |};
    {| key := "accumulatedProduction"; name := "accumulated production" |};
    {| key := "accumulatedProductionLastHour";
       name := "accumulated production current hour" |};
    {| key := "lastMeterConsumption"; name := "last meter consumption" |};
    {| key := "lastMeterProduction"; name := "last meter production" |};
    {| key := "voltagePhase1"; name := "voltage phase1" |};
    {| key := "voltagePhase2"; name := "voltage phase2" |};
    {| key := "voltagePhase3"; name := "voltage phase3" |};
    {| key := "currentL1"; name := "current L1" |};
    {| key := "currentL2"; name := "current L2" |};
    {| key := "currentL3"; name := "current L3" |};
    {| key := "signalStrength"; name := "signal strength" |};
    {| key := "accumulatedReward"; name := "accumulated reward" |};
    {| key := "accumulatedCost"; name := "accumulated cost" |};
    {| key := "powerFactor"; name := "power factor" |} ].

(** [errors[0]], evaluated for the log. *)
Definition first_error (errors : json) : outcome unit :=
  match errors with
  | JList _ | JStr _ => Returns ()
  | JDict _ => Raises KeyError
  | JNull | JBool _ | JNum _ => Raises TypeError
  end.

(** [get_live_measurement], on [self.data]. *)
Definition get_live_measurement (data : json) : outcome json :=
  match data with
  | JDict d =>
      let errors := get d "errors" in
      if truthy errors then
        match first_error errors with
        | Returns _ => Returns JNull
        | Raises e => Raises e
        end
      else
        match default (JDict []) (item d "data") with
        | JDict inner => Returns (get inner "liveMeasurement")
        | _ => Raises AttributeError
        end
  | _ => Raises AttributeError
  end.

(** A [TibberSensorRT], by the fields its update handler works on:
    [entity_description], [_attr_native_value] and [_attr_last_reset] (an
    instant). *)
Record TibberSensorRT : Type := {
  entity_description : description;
  _attr_native_value : json;
  _attr_last_reset : option Z
}.

(** The loop of [_add_sensors] over the descriptions: the entities created
    so far and the keys added so far. *)
Fixpoint add_sensors_loop (descriptions : list description) (live : json)
    (new_entities : list TibberSensorRT) (added : gset string)
    : outcome (list TibberSensorRT) * gset string :=
  match descriptions with
  | [] => (Returns new_entities, added)
  | sensor_description :: rest =>
      if bool_decide (key sensor_description ∈ added)
      then add_sensors_loop rest live new_entities added
      else
        match live with
        | JDict d =>
            match get d (key sensor_description) with
            | JNull => add_sensors_loop rest live new_entities added
            | state =>
                let entity :=
                  {| entity_description := sensor_description;
                     _attr_native_value := state;
                     _attr_last_reset := None |} in
                add_sensors_loop rest live (new_entities ++ [entity])
                                 ({[key sensor_description]} ∪ added)
            end
        | _ => (Raises AttributeError, added)
        end
  end.

(** [_add_sensors]: the entities handed to [async_add_entities] and
    [_added_sensors] afterwards. *)
Definition _add_sensors (data : json) (_added_sensors : gset string)
    : outcome (list TibberSensorRT) * gset string :=
  match get_live_measurement data with
  | Raises e => (Raises e, _added_sensors)
  | Returns live_measurement =>
      if truthy live_measurement
      then add_sensors_loop RT_SENSORS live_measurement [] _added_sensors
      else (Returns [], _added_sensors)
  end.

(** The coordinator over a series of pushed data: every push runs
    [_add_sensors] on the [_added_sensors] the pushes before left; a run
    that raises hands no entities to [async_add_entities]. *)
Fixpoint pushes (series : list json) (_added_sensors : gset string)
    : list TibberSensorRT * gset string :=
  match series with
  | [] => ([], _added_sensors)
  | data :: series' =>
      let '(r, added) := _add_sensors data _added_sensors in
      let created := match r with Returns l => l | Raises _ => [] end in
      let '(later, added') := pushes series' added in
      (created ++ later, added')
  end.

(** ** The real-time sensor *)

(** [state < 0.5 * native_value]. *)
Definition below_half (state native_value : json) : outcome bool :=
  match number native_value with
  | None => Raises TypeError
  | Some v =>
      match number state with
      | None => Raises TypeError
      | Some x => Returns (Qlt_bool x ((1 # 2) * v))
      end
  end.

(** The condition under which [_handle_coordinator_update] moves
    [last_reset]. *)
Definition resets (last_reset : option Z) (state native_value : json)
    (ts_local : datetime) : outcome bool :=
  match last_reset with
  | None => Returns true
  | Some last =>
      match below_half state native_value with
      | Raises e => Raises e
      | Returns false => Returns false
      | Returns true =>
          Returns (bool_decide (hour ts_local = 0)
                   || (instant ts_local - last >? 24 * microseconds_per_hour))
      end
  end.

(** [_handle_coordinator_update], with [dt_util.parse_datetime] taken on
    the timestamps of the API, which carry their offset. *)
Definition _handle_coordinator_update
    (parse_datetime : string → option datetime) (data : json)
    (self : TibberSensorRT) : outcome unit * TibberSensorRT :=
  match get_live_measurement data with
  | Raises e => (Raises e, self)
  | Returns live_measurement =>
      if negb (truthy live_measurement) then (Returns (), self)
      else
        match live_measurement with
        | JDict live =>
            let k := key (entity_description self) in
            match get live k with
            | JNull => (Returns (), self)
            | state =>
                let reset : outcome (option Z) :=
                  if bool_decide (k = "accumulatedConsumption")
                     || bool_decide (k = "accumulatedProduction")
                  then
                    match item live "timestamp" with
                    | None => Raises KeyError
                    | Some (JStr timestamp) =>
                        match parse_datetime timestamp with
                        | None => Returns (_attr_last_reset self)
                        | Some ts_local =>
                            match resets (_attr_last_reset self) state
                                         (_attr_native_value self) ts_local with
                            | Raises e => Raises e
                            | Returns true => Returns (Some (midnight_utc ts_local))
                            | Returns false => Returns (_attr_last_reset self)
                            end
                        end
                    | Some _ => Raises TypeError
                    end
                  else Returns (_attr_last_reset self) in
                match reset with
                | Raises e => (Raises e, self)
                | Returns last_reset =>
                    let self :=
                      {| entity_description := entity_description self;
                         _attr_native_value := _attr_native_value self;
                         _attr_last_reset := last_reset |} in
                    let scaled : outcome json :=
                      if bool_decide (k = "powerFactor") then
                        match number state with
                        | Some x => Returns (JNum (x * 100))
                        | None => Raises TypeError
                        end
                      else Returns state in
                    match scaled with
                    | Raises e => (Raises e, self)
                    | Returns state =>
                        (Returns (),
                         {| entity_description := entity_description self;
                            _attr_native_value := state;
                            _attr_last_reset := _attr_last_reset self |})
                    end
                end
            end
        | _ => (Raises AttributeError, self)
        end
  end.

(** ** Statistics rows *)

(** A [StatisticData]. *)
Record StatisticData : Type := {
  start : option Z;
  state : json;
  sum : Q
}.

(** The loop of [_insert_statistics] over [hourly_consumption_data] for one
    [sensor_type], from the running [_sum] and [last_stats_time]: the rows
    it appends to [statistics]. *)
Fixpoint statistics_rows (parse_datetime : string → option Z)
    (sensor_type : string) (last_stats_time : option Z) (_sum : Q)
    (hourly_consumption_data : list json) : outcome (list StatisticData) :=
  match hourly_consumption_data with
  | [] => Returns []
  | JDict data :: rest =>
      match get data sensor_type with
      | JNull =>
          statistics_rows parse_datetime sensor_type last_stats_time _sum rest
      | value =>
          match item data "from" with
          | None => Raises KeyError
          | Some (JStr from) =>
              let start := parse_datetime from in
              let skip : outcome bool :=
                match last_stats_time, start with
                | None, _ => Returns false
                | Some _, None => Raises TypeError
                | Some last, Some t => Returns (t <=? last)
                end in
              match skip with
              | Raises e => Raises e
              | Returns true =>
                  statistics_rows parse_datetime sensor_type last_stats_time
                                  _sum rest
              | Returns false =>
                  match number value with
                  | None => Raises TypeError
                  | Some x =>
                      let _sum := (_sum + x)%Q in
                      match statistics_rows parse_datetime sensor_type
                                            last_stats_time _sum rest with
                      | Raises e => Raises e
                      | Returns statistics =>
                          Returns ({| start := start; state := value;
                                      sum := _sum |} :: statistics)
                      end
                  end
              end
          | Some _ => Raises TypeError
          end
      end
  | _ :: _ => Raises AttributeError
  end.

(** The state of a row as a number. *)
Definition row_number (row : StatisticData) : Q :=
  default 0%Q (number (state row)).

(** Each row adds its state to the sum of the row before, the first one to
    [_sum]. *)
Fixpoint running (_sum : Q) (rows : list StatisticData) : Prop :=
  match rows with
  | [] => True
  | row :: rest =>
      (∃ x, number (state row) = Some x ∧ sum row = (_sum + x)%Q)
      ∧ running (sum row) rest
  end.

(** The keys of entities. *)
Definition keys (entities : list TibberSensorRT) : list string :=
  (λ e, key (entity_description e)) <$> entities.

(** ** A parser to evaluate the model on *)

(** Timestamps written as a count of hours since the epoch, in a timezone
    [offset] hours off UTC. *)
Definition hours_local (offset : Z) (s : string) : option datetime :=
  match s with
  | EmptyString => None
  | _ =>
      (λ h, {| instant := (h - offset) * microseconds_per_hour;
               utcoffset := offset * microseconds_per_hour |})
      <$> digits s 0
  end.

Definition hours_utc (s : string) : option Z := instant <$> hours_local 0 s.

End Tibber.

(** ** The sensor *)

Section Sensor.

Context `{Runtime}.

(** [statistics.stdev]. *)
Definition stdev (data : list Q) : result Q :=
  var ←! statistics.variance data; Ok (math_sqrt var).

(** [len(self.states)] and the buffer read as numbers.  A numeric sensor
    only ever appends floats, which is what the numeric characteristics are
    typed for; a bool would count as 0 or 1, as in Python arithmetic. *)
Definition len (s : sensor) : nat := length (states s).
Definition values (s : sensor) : list Q := num <$> states s.

(** [(self.ages[-1] - self.ages[0]).total_seconds()]. *)
Definition age_range_seconds (s : sensor) : result Q :=
  newest ←! getitem_last (ages s);
  oldest ←! getitem (ages s) 0;
  Ok (total_seconds (newest - oldest)).

(** *** Statistics for a numeric sensor *)

Definition _stat_average_linear (s : sensor) : result pyval :=
  if (2 <=? len s)%nat then
    area ←! for_each (range 1 (len s)) 0%Q (λ i area,
      x1 ←! getitem (states s) i;
      x0 ←! getitem (states s) (i - 1);
      t1 ←! getitem (ages s) i;
      t0 ←! getitem (ages s) (i - 1);
      Ok (area + (1 # 2) * (num x1 + num x0) * total_seconds (t1 - t0))%Q);
    rng ←! age_range_seconds s;
    r ←! py_truediv area rng;
    Ok (PFloat r)
  else Ok PNone.

Definition _stat_average_step (s : sensor) : result pyval :=
  if (2 <=? len s)%nat then
    area ←! for_each (range 1 (len s)) 0%Q (λ i area,
      x0 ←! getitem (states s) (i - 1);
      t1 ←! getitem (ages s) i;
      t0 ←! getitem (ages s) (i - 1);
      Ok (area + num x0 * total_seconds (t1 - t0))%Q);
    rng ←! age_range_seconds s;
    r ←! py_truediv area rng;
    Ok (PFloat r)
  else Ok PNone.

Definition _stat_mean (s : sensor) : result pyval :=
  if (0 <? len s)%nat then
    m ←! statistics.mean (values s); Ok (PFloat m)
  else Ok PNone.

Definition _stat_average_timeless (s : sensor) : result pyval :=
  _stat_mean s.

Definition _stat_change (s : sensor) : result pyval :=
  if (0 <? len s)%nat then
    newest ←! getitem_last (states s);
    oldest ←! getitem (states s) 0;
    Ok (PFloat (num newest - num oldest))
  else Ok PNone.

Definition _stat_change_sample (s : sensor) : result pyval :=
  if (1 <? len s)%nat then
    newest ←! getitem_last (states s);
    oldest ←! getitem (states s) 0;
    r ←! py_truediv (num newest - num oldest)
                    (inject_Z (Z.of_nat (len s) - 1));
    Ok (PFloat r)
  else Ok PNone.

Definition _stat_change_second (s : sensor) : result pyval :=
  if (1 <? len s)%nat then
    rng ←! age_range_seconds s;
    if Qlt_bool 0 rng then
      newest ←! getitem_last (states s);
      oldest ←! getitem (states s) 0;
      r ←! py_truediv (num newest - num oldest) rng;
      Ok (PFloat r)
    else Ok PNone
  else Ok PNone.

Definition _stat_count (s : sensor) : result pyval :=
  Ok (PInt (Z.of_nat (len s))).

Definition _stat_datetime_newest (s : sensor) : result pyval :=
  if (0 <? len s)%nat then
    t ←! getitem_last (ages s); Ok (PDatetime t)
  else Ok PNone.

Definition _stat_datetime_oldest (s : sensor) : result pyval :=
  if (0 <? len s)%nat then
    t ←! getitem (ages s) 0; Ok (PDatetime t)
  else Ok PNone.

Definition _stat_standard_deviation (s : sensor) : result pyval :=
  if (2 <=? len s)%nat then
    sd ←! stdev (values s); Ok (PFloat sd)
  else Ok PNone.

(** [k * cast(float, self._stat_standard_deviation())]. *)
Definition times_standard_deviation (k : Q) (s : sensor) : result pyval :=
  sd ←! _stat_standard_deviation s;
  match sd with
  | PFloat sd => Ok (PFloat (k * sd))
  | _ => Raise TypeError
  end.

Definition _stat_distance_95_percent_of_values (s : sensor) : result pyval :=
  if (2 <=? len s)%nat then times_standard_deviation (2 * (196 # 100)) s
  else Ok PNone.

Definition _stat_distance_99_percent_of_values (s : sensor) : result pyval :=
  if (2 <=? len s)%nat then times_standard_deviation (2 * (258 # 100)) s
  else Ok PNone.

Definition _stat_distance_absolute (s : sensor) : result pyval :=
  if (0 <? len s)%nat then
    hi ←! py_max (values s);
    lo ←! py_min (values s);
    Ok (PFloat (hi - lo))
  else Ok PNone.

Definition _stat_median (s : sensor) : result pyval :=
  if (0 <? len s)%nat then
    m ←! statistics.median (values s); Ok (PFloat m)
  else Ok PNone.

Definition _stat_noisiness (s : sensor) : result pyval :=
  if (2 <=? len s)%nat then
    let diff_sum :=
      Qsum ((λ ij, Qabs (ij.2 - ij.1)) <$> zip (values s) (tail (values s)))
    in
    r ←! py_truediv diff_sum (inject_Z (Z.of_nat (len s) - 1));
    Ok (PFloat r)
  else Ok PNone.

Definition _stat_quantiles (s : sensor) : result pyval :=
  if Z.of_nat (len s) >? _quantile_intervals (cfg s) then
    qs ←! statistics.quantiles (values s) (_quantile_intervals (cfg s))
                               (_quantile_method (cfg s));
    Ok (PStr (py_str ((λ quantile, round_float quantile (_precision (cfg s)))
                        <$> qs)))
  else Ok PNone.

Definition _stat_total (s : sensor) : result pyval :=
  if (0 <? len s)%nat then Ok (PFloat (Qsum (values s))) else Ok PNone.

Definition _stat_value_max (s : sensor) : result pyval :=
  if (0 <? len s)%nat then hi ←! py_max (values s); Ok (PFloat hi)
  else Ok PNone.

Definition _stat_value_min (s : sensor) : result pyval :=
  if (0 <? len s)%nat then lo ←! py_min (values s); Ok (PFloat lo)
  else Ok PNone.

Definition _stat_variance (s : sensor) : result pyval :=
  if (2 <=? len s)%nat then
    v ←! statistics.variance (values s); Ok (PFloat v)
  else Ok PNone.

(** *** Statistics for a binary sensor *)

Definition _stat_binary_average_step (s : sensor) : result pyval :=
  if (2 <=? len s)%nat then
    on_seconds ←! for_each (range 1 (len s)) 0%Q (λ i on_seconds,
      x0 ←! getitem (states s) (i - 1);
      if is_True x0 then
        t1 ←! getitem (ages s) i;
        t0 ←! getitem (ages s) (i - 1);
        Ok (on_seconds + total_seconds (t1 - t0))%Q
      else Ok on_seconds);
    rng ←! age_range_seconds s;
    r ←! py_truediv 100 rng;
    Ok (PFloat (r * on_seconds))
  else Ok PNone.

Definition _stat_binary_count (s : sensor) : result pyval :=
  Ok (PInt (Z.of_nat (len s))).

Definition _stat_binary_mean (s : sensor) : result pyval :=
  if (0 <? len s)%nat then
    r ←! py_truediv 100 (inject_Z (Z.of_nat (len s)));
    Ok (PFloat (r * inject_Z (Z.of_nat (length (filter (λ x, eq_True x = true)
                                                       (states s))))))
  else Ok PNone.

Definition _stat_binary_average_timeless (s : sensor) : result pyval :=
  _stat_binary_mean s.

(** *** Construction *)

(** [getattr(self, f"_stat_binary_{c}")] or [getattr(self, f"_stat_{c}")]:
    [None] when the class has no such method. *)
Definition characteristic_fn (binary : bool) (c : characteristic)
    : option (sensor → result pyval) :=
  if binary then
    match c with
    | STAT_AVERAGE_STEP => Some _stat_binary_average_step
    | STAT_AVERAGE_TIMELESS => Some _stat_binary_average_timeless
    | STAT_COUNT => Some _stat_binary_count
    | STAT_MEAN => Some _stat_binary_mean
    | _ => None
    end
  else
    Some match c with
         | STAT_AVERAGE_LINEAR => _stat_average_linear
         | STAT_AVERAGE_STEP => _stat_average_step
         | STAT_AVERAGE_TIMELESS => _stat_average_timeless
         | STAT_CHANGE => _stat_change
         | STAT_CHANGE_SAMPLE => _stat_change_sample
         | STAT_CHANGE_SECOND => _stat_change_second
         | STAT_COUNT => _stat_count
         | STAT_DATETIME_NEWEST => _stat_datetime_newest
         | STAT_DATETIME_OLDEST => _stat_datetime_oldest
         | STAT_DISTANCE_95P => _stat_distance_95_percent_of_values
         | STAT_DISTANCE_99P => _stat_distance_99_percent_of_values
         | STAT_DISTANCE_ABSOLUTE => _stat_distance_absolute
         | STAT_MEAN => _stat_mean
         | STAT_MEDIAN => _stat_median
         | STAT_NOISINESS => _stat_noisiness
         | STAT_QUANTILES => _stat_quantiles
         | STAT_STANDARD_DEVIATION => _stat_standard_deviation
         | STAT_TOTAL => _stat_total
         | STAT_VALUE_MAX => _stat_value_max
         | STAT_VALUE_MIN => _stat_value_min
         | STAT_VARIANCE => _stat_variance
         end.

(** [self._state_characteristic_fn()]. The method is looked up once, in
    [__init__]; a sensor whose lookup fails is never constructed. *)
Definition _state_characteristic_fn (s : sensor) : result pyval :=
  match characteristic_fn (is_binary (cfg s)) (_state_characteristic (cfg s)) with
  | Some fn => fn s
  | None => Raise AttributeError
  end.

(** [StatisticsSensor.__init__]: empty deques, every attribute [None]. *)
Definition StatisticsSensor (c : config) : result sensor :=
  match characteristic_fn (is_binary c) (_state_characteristic c) with
  | None => Raise AttributeError
  | Some _ =>
      Ok {| cfg := c; _value := PNone; _unit_of_measurement := None;
            _available := false; states := []; ages := [];
            attributes := <[STAT_AGE_COVERAGE_RATIO := PNone]>
                          (<[STAT_BUFFER_USAGE_RATIO := PNone]>
                          (<[STAT_SOURCE_VALUE_VALID := PNone]> ∅));
            _update_listener := None |}
  end.

(** *** Ingestion *)

Definition _derive_unit_of_measurement (new_state : State) (s : sensor)
    : result (option string) :=
  let base_unit := unit_of_measurement new_state in
  let c := _state_characteristic (cfg s) in
  if is_binary (cfg s)
     && member c [STAT_AVERAGE_STEP; STAT_AVERAGE_TIMELESS; STAT_MEAN]
  then Ok (Some "%")
  else
    match base_unit with
    | None | Some "" => Ok None
    | Some base_unit =>
        if member c [ STAT_AVERAGE_LINEAR; STAT_AVERAGE_STEP;
                      STAT_AVERAGE_TIMELESS; STAT_CHANGE; STAT_DISTANCE_95P;
                      STAT_DISTANCE_99P; STAT_DISTANCE_ABSOLUTE; STAT_MEAN;
                      STAT_MEDIAN; STAT_NOISINESS; STAT_STANDARD_DEVIATION;
                      STAT_TOTAL; STAT_VALUE_MAX; STAT_VALUE_MIN ]
        then Ok (Some base_unit)
        else if member c STATS_NOT_A_NUMBER then Ok None
        else if bool_decide (c = STAT_COUNT) then Ok None
        else if bool_decide (c = STAT_VARIANCE)
        then Ok (Some (base_unit +:+ "²"))
        else if bool_decide (c = STAT_CHANGE_SAMPLE)
        then Ok (Some (base_unit +:+ "/sample"))
        else if bool_decide (c = STAT_CHANGE_SECOND)
        then Ok (Some (base_unit +:+ "/s"))
        else Raise UnboundLocalError
    end.

(** The body of the [try] block of [_add_state_to_queue]. *)
Definition append_parsed (new_state : State) (st : string) (s : sensor)
    : result unit * sensor :=
  let maxlen := _samples_max_buffer_size (cfg s) in
  let parsed : result sample :=
    if is_binary (cfg s) then
      if bool_decide (st = "on") || bool_decide (st = "off")
      then Ok (SBool (bool_decide (st = "on")))
      else Raise AssertionError
    else
      match py_float st with
      | Some q => Ok (SFloat q)
      | None => Raise ValueError
      end in
  match parsed with
  | Raise e => (Raise e, s)
  | Ok x =>
      let s := set_states (deque_append maxlen (states s) x) s in
      let s := set_ages (deque_append maxlen (ages s) (last_updated new_state)) s in
      (Ok (), set_attribute STAT_SOURCE_VALUE_VALID (PBool true) s)
  end.

Definition _add_state_to_queue (new_state : State) (s : sensor)
    : result unit * sensor :=
  let unavailable := bool_decide (state new_state = Some STATE_UNAVAILABLE) in
  let s := set_available (negb unavailable) s in
  if unavailable then
    (Ok (), set_attribute STAT_SOURCE_VALUE_VALID PNone s)
  else
    match state new_state with
    | None => (Ok (), set_attribute STAT_SOURCE_VALUE_VALID (PBool false) s)
    | Some st =>
        if bool_decide (st = STATE_UNKNOWN) then
          (Ok (), set_attribute STAT_SOURCE_VALUE_VALID (PBool false) s)
        else
          match append_parsed new_state st s with
          | (Raise ValueError, s) =>
              (Ok (), set_attribute STAT_SOURCE_VALUE_VALID (PBool false) s)
          | (Raise e, s) => (Raise e, s)
          | (Ok _, s) =>
              match _derive_unit_of_measurement new_state s with
              | Ok u => (Ok (), set_unit_of_measurement u s)
              | Raise e => (Raise e, s)
              end
          end
    end.

(** *** Purge and recompute *)

(** The loop of [_purge_old_states]:
    [while self.ages and (now - self.ages[0]) > max_age], popping the left
    end of [ages] and then of [states]. *)
Fixpoint purge_loop (now max_age : Z) (ages : list Z) (states : list sample)
    : result unit * (list Z * list sample) :=
  match ages with
  | [] => (Ok (), ([], states))
  | oldest :: ages' =>
      if now - oldest >? max_age then
        match states with
        | [] => (Raise IndexError, (ages', []))
        | _ :: states' => purge_loop now max_age ages' states'
        end
      else (Ok (), (ages, states))
  end.

(** [_purge_old_states], with [dt_util.utcnow()] passed in as [now]. *)
Definition _purge_old_states (now max_age : Z) (s : sensor)
    : result unit * sensor :=
  let '(r, (ages', states')) := purge_loop now max_age (ages s) (states s) in
  (r, set_states states' (set_ages ages' s)).

(** A [timedelta] of zero is falsy. *)
Definition _next_to_purge_timestamp (s : sensor) : option Z :=
  match ages s, _samples_max_age (cfg s) with
  | oldest :: _, Some max_age =>
      if max_age =? 0 then None else Some (oldest + max_age)
  | _, _ => None
  end.

Definition _update_attributes (s : sensor) : result unit * sensor :=
  match py_truediv (inject_Z (Z.of_nat (len s)))
                   (inject_Z (Z.of_nat (_samples_max_buffer_size (cfg s)))) with
  | Raise e => (Raise e, s)
  | Ok usage =>
      let s := set_attribute STAT_BUFFER_USAGE_RATIO
                             (PFloat (round_float usage 2)) s in
      match _samples_max_age (cfg s) with
      | Some max_age =>
          if (1 <=? len s)%nat then
            match rng ←! age_range_seconds s;
                  py_truediv rng (total_seconds max_age) with
            | Raise e => (Raise e, s)
            | Ok coverage =>
                (Ok (), set_attribute STAT_AGE_COVERAGE_RATIO
                                      (PFloat (round_float coverage 2)) s)
            end
          else (Ok (), set_attribute STAT_AGE_COVERAGE_RATIO PNone s)
      | None => (Ok (), set_attribute STAT_AGE_COVERAGE_RATIO PNone s)
      end
  end.

(** The rounding step of [_update_value]: under
    [contextlib.suppress(TypeError)], [value] keeps what was last assigned
    to it when a [TypeError] leaves the block. *)
Definition round_value (value : pyval) (precision : Z) : result pyval :=
  match py_round value precision with
  | Raise TypeError => Ok value
  | Raise e => Raise e
  | Ok value =>
      if precision =? 0 then
        match py_int value with
        | Raise TypeError => Ok value
        | r => r
        end
      else Ok value
  end.

Definition _update_value (s : sensor) : result unit * sensor :=
  match _state_characteristic_fn s with
  | Raise e => (Raise e, s)
  | Ok value =>
      let value :=
        if negb (member (_state_characteristic (cfg s)) STATS_NOT_A_NUMBER)
        then round_value value (_precision (cfg s))
        else Ok value in
      match value with
      | Raise e => (Raise e, s)
      | Ok value => (Ok (), set_value value s)
      end
  end.

(** [m1; m2] on the sensor: [m2] runs only if [m1] returns. *)
Definition and_then (m1 m2 : sensor → result unit * sensor) (s : sensor)
    : result unit * sensor :=
  match m1 s with
  | (Ok _, s') => m2 s'
  | (Raise e, s') => (Raise e, s')
  end.
Notation "m1 ;; m2" := (and_then m1 m2) (at level 100, m2 at level 200, right associativity).

(** The tail of [async_update]: cancel the pending wake-up and schedule one
    at the next expiry. *)
Definition schedule_update (s : sensor) : result unit * sensor :=
  match _next_to_purge_timestamp s with
  | Some next_to_purge_timestamp =>
      (Ok (), set_update_listener (Some next_to_purge_timestamp) s)
  | None => (Ok (), s)
  end.

(** The head of [async_update]:
    [if self._samples_max_age is not None: self._purge_old_states(...)]. *)
Definition purge_if_max_age (now : Z) (s : sensor) : result unit * sensor :=
  match _samples_max_age (cfg s) with
  | Some max_age => _purge_old_states now max_age s
  | None => (Ok (), s)
  end.

(** [async_update], the recompute; [now] is the clock read by the purge. *)
Definition async_update (now : Z) : sensor → result unit * sensor :=
  purge_if_max_age now ;;
  _update_attributes ;;
  _update_value ;;
  schedule_update.

(** [_scheduled_update]: the wake-up requests a recompute and forgets its
    handle. *)
Definition _scheduled_update (now : Z) (s : sensor) : result unit * sensor :=
  async_update now (set_update_listener None s).

(** The operations that reach the buffer. An exception of one is absorbed
    by the caller; the sensor stays as the operation left it. *)
Inductive operation : Type :=
  | Ingest (new_state : State)
  | Purge (now : Z)
  | Update (now : Z)
  | Wakeup (now : Z).

Definition perform (o : operation) (s : sensor) : sensor :=
  match o with
  | Ingest new_state => (_add_state_to_queue new_state s).2
  | Purge now => (purge_if_max_age now s).2
  | Update now => (async_update now s).2
  | Wakeup now => (_scheduled_update now s).2
  end.

Definition run (ops : list operation) (s : sensor) : sensor :=
  foldl (λ s o, perform o s) s ops.

(** *** Start-up *)

(** The loop of [_initialize_from_database]:
    [for state in states: self._add_state_to_queue(state)]; an exception of
    [_add_state_to_queue] leaves it. *)
Fixpoint replay (history : list State) (s : sensor) : result unit * sensor :=
  match history with
  | [] => (Ok (), s)
  | new_state :: history' =>
      and_then (_add_state_to_queue new_state) (replay history') s
  end.

(** [_initialize_from_database], given the states the recorder returned,
    newest first: they are replayed oldest first.  The recompute it then
    requests is an [async_update] of its own. *)
Definition _initialize_from_database (fetched : list State) (s : sensor)
    : result unit * sensor :=
  replay (reverse fetched) s.

(** The reading a numeric sensor admits, as the sample and timestamp it
    appends. *)
Definition admitted (new_state : State) : option (sample * Z) :=
  match state new_state with
  | Some st =>
      if bool_decide (st = STATE_UNAVAILABLE) || bool_decide (st = STATE_UNKNOWN)
      then None
      else (λ q, (SFloat q, last_updated new_state)) <$> py_float st
  | None => None
  end.

(** The newest [n] entries of [l]. *)
Definition newest {A} (n : nat) (l : list A) : list A := drop (length l - n) l.

(** *** Notions of the time-weighted characteristics *)





(** ** Notions the statements are written with *)

(** The part of the sensor the characteristics read. *)
Definition same_buffer (s s' : sensor) : Prop :=
  cfg s' = cfg s ∧ states s' = states s ∧ ages s' = ages s.

(** The buffer invariant: the deques are aligned and within [maxlen]. *)
Definition buffer_ok (s : sensor) : Prop :=
  length (states s) = length (ages s)
  ∧ (length (states s) ≤ _samples_max_buffer_size (cfg s))%nat.

(** The value parses for the source's kind. *)
Definition parses (binary : bool) (st : string) : bool :=
  if binary then bool_decide (st = "on") || bool_decide (st = "off")
  else bool_decide (is_Some (py_float st)).

(** The sample a value is read as, for the source's kind. *)
Definition parsed (binary : bool) (st : string) : option sample :=
  if binary then
    if bool_decide (st = "on") then Some (SBool true)
    else if bool_decide (st = "off") then Some (SBool false)
    else None
  else SFloat <$> py_float st.

(** A rejected reading: it signals unavailable or unknown, has no value, or
    its value does not parse. *)
Definition rejected (binary : bool) (new_state : State) : Prop :=
  match state new_state with
  | None => True
  | Some st =>
      st = STATE_UNAVAILABLE ∨ st = STATE_UNKNOWN ∨ parses binary st = false
  end.

(** The unit as the specification words it, from the characteristic, the
    source kind and the declared unit. *)
Definition specified_unit (binary : bool) (c : characteristic)
    (declared : option string) : option string :=
  if binary && bool_decide (c ∈ [STAT_AVERAGE_STEP; STAT_AVERAGE_TIMELESS; STAT_MEAN])
  then Some "%"
  else
    match declared with
    | None => None
    | Some u =>
        match c with
        | STAT_AVERAGE_LINEAR | STAT_AVERAGE_STEP | STAT_AVERAGE_TIMELESS
        | STAT_CHANGE
        | STAT_DISTANCE_95P | STAT_DISTANCE_99P | STAT_DISTANCE_ABSOLUTE
        | STAT_MEAN | STAT_MEDIAN | STAT_NOISINESS | STAT_STANDARD_DEVIATION
        | STAT_TOTAL | STAT_VALUE_MIN | STAT_VALUE_MAX => Some u
        | STAT_COUNT | STAT_DATETIME_NEWEST | STAT_DATETIME_OLDEST
        | STAT_QUANTILES => None
        | STAT_VARIANCE => Some (u +:+ "²")
        | STAT_CHANGE_SAMPLE => Some (u +:+ "/sample")
        | STAT_CHANGE_SECOND => Some (u +:+ "/s")
        end
    end.

(** An empty unit string counts as no unit ([not base_unit]). *)
Definition declared_unit (new_state : State) : option string :=
  match unit_of_measurement new_state with
  | Some "" => None
  | u => u
  end.







(** Two sensors with the same buffer, field by field. *)
Ltac same_buffer_subst s s' Hsame :=
  destruct s as [c v u a xs ts attrs l], s' as [c' v' u' a' xs' ts' attrs' l'];
  destruct Hsame as (Hc & Hx & Ht); simpl in Hc, Hx, Ht; subst c' xs' ts'.

(** ** Evaluations of the builtins *)

Example round_float_ex1 : (round_float (5 # 2) 0 == 2)%Q.
Proof. reflexivity. Qed.

Example round_float_ex2 : (round_float (1 # 8) 2 == 12 # 100)%Q.
Proof. reflexivity. Qed.

Example round_int_ex : round_int 1250 (-2) = 1200.
Proof. reflexivity. Qed.

Example mean_123 : statistics.mean [1; 2; 3]%Q = Ok (6 # 3).
Proof. reflexivity. Qed.

Example variance_123 :
  match statistics.variance [1; 2; 3]%Q with
  | Ok v => Qeq_bool v 1 = true
  | Raise _ => False
  end.
Proof. reflexivity. Qed.

Example median_ex : statistics.median [3; 1; 2; 10]%Q = Ok ((2 + 3) / 2)%Q.
Proof. reflexivity. Qed.

Example quantiles_ex :
  statistics.quantiles [1; 2; 3; 4; 5]%Q 4 exclusive
  = Ok (map (λ q, q / 4)%Q [1 * 2 + 2 * 2; 3 * 4 + 4 * 0; 4 * 2 + 5 * 2])%Q.
Proof. vm_compute. reflexivity. Qed.

(** ** Frame lemmas: what each step leaves alone *)

Lemma same_buffer_refl s : same_buffer s s.
Proof. by repeat split. Qed.

Lemma same_buffer_trans s1 s2 s3 :
  same_buffer s1 s2 → same_buffer s2 s3 → same_buffer s1 s3.
Proof. unfold same_buffer. intros (? & ? & ?) (? & ? & ?). repeat split; congruence. Qed.

Lemma update_attributes_buffer s : same_buffer s (_update_attributes s).2.
Proof.
  unfold _update_attributes.
  repeat (case_match; simpl; try apply same_buffer_refl); by repeat split.
Qed.

Lemma update_value_buffer s : same_buffer s (_update_value s).2.
Proof.
  unfold _update_value.
  repeat (case_match; simpl; try apply same_buffer_refl); by repeat split.
Qed.

Lemma schedule_update_buffer s : same_buffer s (schedule_update s).2.
Proof.
  unfold schedule_update. case_match; simpl; by repeat split.
Qed.

Lemma deque_append_length {A} maxlen (l : list A) x :
  length (deque_append maxlen l x) = (S (length l) `min` maxlen)%nat.
Proof.
  unfold deque_append. rewrite length_drop, !length_app. cbn [length]. lia.
Qed.

Lemma append_parsed_cfg new_state st s :
  cfg (append_parsed new_state st s).2 = cfg s.
Proof. unfold append_parsed. by repeat (case_match; simpl). Qed.

Lemma append_parsed_ok new_state st s :
  buffer_ok s → buffer_ok (append_parsed new_state st s).2.
Proof.
  unfold append_parsed, buffer_ok. intros [Hl Hm].
  repeat (case_match; simpl); try done;
    rewrite !deque_append_length; lia.
Qed.

Lemma add_state_to_queue_cfg new_state s :
  cfg (_add_state_to_queue new_state s).2 = cfg s.
Proof.
  unfold _add_state_to_queue.
  repeat (case_match; simpl); try done;
  match goal with
  | H : append_parsed ?n ?st ?s0 = _ |- _ =>
      pose proof (append_parsed_cfg n st s0) as Hc; rewrite H in Hc
  end; simpl in Hc; done.
Qed.

Lemma add_state_to_queue_ok new_state s :
  buffer_ok s → buffer_ok (_add_state_to_queue new_state s).2.
Proof.
  intros Hok. unfold _add_state_to_queue.
  repeat (case_match; simpl); try done;
  match goal with
  | H : append_parsed ?n ?st ?s0 = _ |- _ =>
      pose proof (append_parsed_ok n st s0 Hok) as Hc; rewrite H in Hc
  end; simpl in Hc; done.
Qed.

Lemma and_then_buffer (m1 m2 : sensor → result unit * sensor) :
  (∀ s, same_buffer s (m1 s).2) → (∀ s, same_buffer s (m2 s).2) →
  ∀ s, same_buffer s (and_then m1 m2 s).2.
Proof.
  intros H1 H2 s. unfold and_then.
  pose proof (H1 s) as Hs. destruct (m1 s) as [[[]|e] s']; simpl in *; [|done].
  eapply same_buffer_trans; [exact Hs | apply H2].
Qed.

(** What follows the purge in [async_update]. *)
Lemma publish_buffer s :
  same_buffer s (and_then _update_attributes
                   (and_then _update_value schedule_update) s).2.
Proof.
  revert s. apply and_then_buffer; [apply update_attributes_buffer|].
  apply and_then_buffer; [apply update_value_buffer | apply schedule_update_buffer].
Qed.

(** ** The purge *)

(** On aligned deques the loop drops the same number [k] of entries from
    both, every dropped timestamp is older than [max_age], and the first
    one kept is not. *)
Lemma purge_loop_spec now max_age (ts : list Z) (xs : list sample) :
  length xs = length ts →
  ∃ k : nat,
    purge_loop now max_age ts xs = (Ok (), (drop k ts, drop k xs))
    ∧ (k ≤ length ts)%nat
    ∧ (∀ t, t ∈ take k ts → now - t > max_age)
    ∧ (∀ t, head (drop k ts) = Some t → now - t ≤ max_age).
Proof.
  revert xs. induction ts as [|t ts IH]; intros xs Hlen.
  - exists 0%nat. destruct xs; [|done]. simpl. repeat split; [lia | | done].
    intros t Ht. by apply elem_of_nil in Ht.
  - destruct xs as [|x xs]; [done|]. simpl in Hlen.
    simpl. destruct (now - t >? max_age) eqn:Hold.
    + destruct (IH xs) as (k & Heq & Hk & Hdrop & Hkeep); [lia|].
      exists (S k). simpl. repeat split; [done | lia | | done].
      intros t' [->|Hin]%elem_of_cons; [lia | by apply Hdrop].
    + exists 0%nat. simpl. repeat split; [lia | | ].
      * intros t' Ht'. by apply elem_of_nil in Ht'.
      * intros t' [= <-]. lia.
Qed.

Lemma purge_old_states_cfg now max_age s :
  cfg (_purge_old_states now max_age s).2 = cfg s.
Proof.
  unfold _purge_old_states.
  by destruct (purge_loop now max_age (ages s) (states s)) as [r [ts xs]].
Qed.

Lemma purge_old_states_spec now max_age s :
  length (states s) = length (ages s) →
  ∃ k : nat,
    _purge_old_states now max_age s
    = (Ok (), set_states (drop k (states s)) (set_ages (drop k (ages s)) s))
    ∧ (k ≤ length (ages s))%nat
    ∧ (∀ t, t ∈ take k (ages s) → now - t > max_age)
    ∧ (∀ t, head (drop k (ages s)) = Some t → now - t ≤ max_age).
Proof.
  intros Hlen.
  destruct (purge_loop_spec now max_age (ages s) (states s) Hlen)
    as (k & Heq & Hk & Hdrop & Hkeep).
  exists k. unfold _purge_old_states. rewrite Heq. done.
Qed.

Lemma purge_if_max_age_cfg now s : cfg (purge_if_max_age now s).2 = cfg s.
Proof.
  unfold purge_if_max_age. case_match; [apply purge_old_states_cfg | done].
Qed.

Lemma purge_if_max_age_ok now s :
  buffer_ok s → buffer_ok (purge_if_max_age now s).2.
Proof.
  intros [Hlen Hmax]. unfold purge_if_max_age. case_match; [|done].
  destruct (purge_old_states_spec now z s Hlen) as (k & -> & Hk & _).
  unfold buffer_ok. simpl. rewrite !length_drop. lia.
Qed.

Lemma same_buffer_ok s s' : same_buffer s s' → buffer_ok s → buffer_ok s'.
Proof. unfold same_buffer, buffer_ok. intros (-> & -> & ->). done. Qed.

Lemma async_update_cfg now s : cfg (async_update now s).2 = cfg s.
Proof.
  unfold async_update, and_then at 1.
  pose proof (purge_if_max_age_cfg now s) as Hc.
  destruct (purge_if_max_age now s) as [[[]|e] s1]; simpl in *; [|done].
  rewrite <- Hc. apply publish_buffer.
Qed.

Lemma async_update_ok now s : buffer_ok s → buffer_ok (async_update now s).2.
Proof.
  intros Hok. unfold async_update, and_then at 1.
  pose proof (purge_if_max_age_ok now s Hok) as H1.
  destruct (purge_if_max_age now s) as [[[]|e] s1]; simpl in *; [|done].
  eapply same_buffer_ok; [apply publish_buffer | done].
Qed.

Lemma perform_cfg o s : cfg (perform o s) = cfg s.
Proof.
  destruct o; simpl.
  - apply add_state_to_queue_cfg.
  - apply purge_if_max_age_cfg.
  - apply async_update_cfg.
  - unfold _scheduled_update. by rewrite async_update_cfg.
Qed.

Lemma perform_ok o s : buffer_ok s → buffer_ok (perform o s).
Proof.
  intros Hok. destruct o; simpl.
  - by apply add_state_to_queue_ok.
  - by apply purge_if_max_age_ok.
  - by apply async_update_ok.
  - unfold _scheduled_update. by apply async_update_ok.
Qed.

Lemma run_ok ops s : buffer_ok s → buffer_ok (run ops s).
Proof.
  revert s. induction ops as [|o ops IH]; intros s Hok; [done|].
  simpl. apply IH. by apply perform_ok.
Qed.

Lemma run_cfg ops s : cfg (run ops s) = cfg s.
Proof.
  revert s. induction ops as [|o ops IH]; intros s; [done|].
  simpl. rewrite IH. apply perform_cfg.
Qed.

(** A configuration that passed validation has its characteristic function. *)
Lemma valid_configuration_has_fn binary configured c :
  valid_state_characteristic_configuration binary configured = Ok c →
  is_Some (characteristic_fn binary c).
Proof.
  unfold valid_state_characteristic_configuration, member.
  destruct binary, configured as [[]|]; simpl; intros [= <-]; by eexists.
Qed.

Lemma StatisticsSensor_ok c s : StatisticsSensor c = Ok s → buffer_ok s.
Proof.
  unfold StatisticsSensor. case_match; [|done]. intros [= <-].
  split; simpl; lia.
Qed.

Lemma StatisticsSensor_cfg c s : StatisticsSensor c = Ok s → cfg s = c.
Proof.
  unfold StatisticsSensor. case_match; [|done]. by intros [= <-].
Qed.

(** ** Readings that are turned away *)

(** Every characteristic falls in a branch of the unit derivation, which
    reads the configuration only. *)
Lemma derive_unit_of_measurement_total new_state s :
  ∃ u, ∀ s', cfg s' = cfg s → _derive_unit_of_measurement new_state s' = Ok u.
Proof.
  unfold _derive_unit_of_measurement, member.
  destruct (is_binary (cfg s)) eqn:Hb, (_state_characteristic (cfg s)) eqn:Hc;
    destruct (unit_of_measurement new_state) as [[|a u]|]; eexists;
    intros s' ->; rewrite Hb, Hc; reflexivity.
Qed.

Lemma append_parsed_fails new_state st s :
  parses (is_binary (cfg s)) st = false →
  append_parsed new_state st s
  = (Raise (if is_binary (cfg s) then AssertionError else ValueError), s).
Proof.
  unfold parses, append_parsed. destruct (is_binary (cfg s)).
  - by intros ->.
  - destruct (py_float st) as [q|] eqn:Hq; [|done].
    intros Hb. apply bool_decide_eq_false in Hb. destruct Hb. by exists q.
Qed.

(** The admitted readings: the sample and its timestamp are appended to the
    deques, the reading is marked valid and the unit derived from it. *)
Lemma accepted_reading_appends (s : sensor) (new_state : State) st x :
  state new_state = Some st →
  st ≠ STATE_UNAVAILABLE → st ≠ STATE_UNKNOWN →
  parsed (is_binary (cfg s)) st = Some x →
  let r := (_add_state_to_queue new_state s).1 in
  let s' := (_add_state_to_queue new_state s).2 in
  let maxlen := _samples_max_buffer_size (cfg s) in
  r = Ok ()
  ∧ states s' = deque_append maxlen (states s) x
  ∧ ages s' = deque_append maxlen (ages s) (last_updated new_state)
  ∧ attributes s' !! STAT_SOURCE_VALUE_VALID = Some (PBool true)
  ∧ Ok (_unit_of_measurement s') = _derive_unit_of_measurement new_state s
  ∧ _available s' = true ∧ _value s' = _value s.
Proof.
  intros Hst Hav Hk Hx. unfold _add_state_to_queue. rewrite Hst.
  rewrite bool_decide_eq_false_2 by congruence. simpl.
  rewrite bool_decide_eq_false_2 by done.
  assert (append_parsed new_state st (set_available true s)
          = (Ok (), set_attribute STAT_SOURCE_VALUE_VALID (PBool true)
                      (set_ages (deque_append (_samples_max_buffer_size (cfg s))
                                   (ages s) (last_updated new_state))
                         (set_states (deque_append (_samples_max_buffer_size (cfg s))
                                        (states s) x)
                            (set_available true s))))) as ->.
  { unfold append_parsed, parsed in *. simpl.
    destruct (is_binary (cfg s)).
    - repeat case_bool_decide; simplify_eq; done.
    - destruct (py_float st); simplify_eq/=; done. }
  destruct (derive_unit_of_measurement_total new_state s) as [u Hu].
  rewrite (Hu s eq_refl), Hu by done. simpl.
  repeat split; try done. apply lookup_insert_eq.
Qed.

(** C10. A rejected reading (unavailable, unknown, without a value, or one
    whose value does not parse) leaves the published value and the derived
    unit of measurement as they were; the buffer is left alone as well, so
    the unit is only recomputed for a reading that was appended. *)
Theorem rejected_reading_keeps_value_and_unit (s : sensor) (new_state : State) :
  rejected (is_binary (cfg s)) new_state →
  let s' := (_add_state_to_queue new_state s).2 in
  _value s' = _value s
  ∧ _unit_of_measurement s' = _unit_of_measurement s
  ∧ states s' = states s ∧ ages s' = ages s.
Proof.
  unfold rejected, _add_state_to_queue. intros Hrej.
  destruct (state new_state) as [st|] eqn:Hst; simpl.
  - case_bool_decide as Hu; simpl; [done|].
    case_bool_decide as Hk; simpl; [done|].
    destruct Hrej as [->|[->|Hp]]; [done | done |].
    rewrite (append_parsed_fails new_state st (set_available true s) Hp).
    simpl. by destruct (is_binary (cfg s)).
  - done.
Qed.

(** C3. Whatever operations (ingest, purge, recompute, wake-up) are run on
    a freshly constructed sensor, [states] and [ages] have the same length
    and that length is at most the configured maximum buffer size. *)
Theorem buffers_aligned_and_bounded (c : config) (s0 : sensor)
    (ops : list operation) :
  StatisticsSensor c = Ok s0 →
  length (states (run ops s0)) = length (ages (run ops s0))
  ∧ (length (states (run ops s0)) ≤ _samples_max_buffer_size c)%nat.
Proof.
  intros Hinit.
  pose proof (run_ok ops s0 (StatisticsSensor_ok c s0 Hinit)) as [Hlen Hmax].
  rewrite run_cfg, (StatisticsSensor_cfg c s0 Hinit) in Hmax. done.
Qed.


(** ** The unit of measurement *)

(** C7 (amended). The derived unit is a function of the characteristic,
    the source kind and the declared unit alone, and it never fails: it is
    the unit the specification gives, with an empty declared unit treated
    like an absent one. *)
Theorem derive_unit_of_measurement_spec (s : sensor) (new_state : State) :
  _derive_unit_of_measurement new_state s
  = Ok (specified_unit (is_binary (cfg s)) (_state_characteristic (cfg s))
                       (declared_unit new_state)).
Proof.
  unfold _derive_unit_of_measurement, specified_unit, declared_unit, member.
  destruct (is_binary (cfg s)), (_state_characteristic (cfg s));
    destruct (unit_of_measurement new_state) as [[|a u]|]; reflexivity.
Qed.

(** ** Sorting *)



Lemma values_length s : length (values s) = len s.
Proof. unfold values, len. apply length_fmap. Qed.

(** ** Quantiles *)



(** ** Time-weighted averages over a buffer with no elapsed time *)

(** A loop whose body returns for every index returns. *)
Lemma for_each_returns {A S} (idx : list A) (acc : S) (body : A → S → result S) :
  (∀ i acc, i ∈ idx → ∃ acc', body i acc = Ok acc') →
  ∃ acc', for_each idx acc body = Ok acc'.
Proof.
  revert acc. induction idx as [|i idx IH]; intros acc Hbody; simpl.
  - by eexists.
  - destruct (Hbody i acc) as [acc' ->]; [left|]. simpl.
    apply IH. intros j acc0 Hj. apply Hbody. by right.
Qed.

Lemma getitem_in_range {A} (l : list A) i :
  (i < length l)%nat → ∃ x, getitem l i = Ok x.
Proof.
  intros Hi. unfold getitem.
  destruct (lookup_lt_is_Some_2 l i Hi) as [x ->]. by eexists.
Qed.

Lemma elem_of_range i a b : i ∈ range a b → (a ≤ i < b)%nat.
Proof. unfold range. rewrite elem_of_seq. lia. Qed.

Lemma age_range_seconds_equal s t0 :
  ages s ≠ [] → (∀ t, t ∈ ages s → t = t0) →
  age_range_seconds s = Ok (total_seconds 0).
Proof.
  intros Hne Heq. unfold age_range_seconds, getitem_last, getitem.
  destruct (ages s) as [|t ts] eqn:Hages; [done|].
  destruct (last (t :: ts)) as [newest|] eqn:Hlast;
    [|by apply last_None in Hlast].
  apply last_Some_elem_of in Hlast. simpl.
  rewrite (Heq newest Hlast), (Heq t) by left.
  by rewrite Z.sub_diag.
Qed.

(** The rate of change guards the same division: with no time elapsed it is
    absent. *)
Lemma change_second_without_elapsed_time s t0 :
  (2 ≤ len s)%nat →
  ages s = replicate (len s) t0 →
  _stat_change_second s = Ok PNone.
Proof.
  intros Hn Hages. unfold _stat_change_second.
  destruct (Nat.ltb_spec 1 (len s)) as [_|]; [|lia].
  rewrite (age_range_seconds_equal s t0).
  - reflexivity.
  - intros Hnil. rewrite Hnil in Hages. destruct (len s); [lia | done].
  - intros t. rewrite Hages. by intros [-> _]%elem_of_replicate.
Qed.

(** C1 (what the code does). On a buffer of at least two samples whose
    timestamps are all equal, [average_linear], [average_step] and the
    binary [average_step] do not return an absent result: the division by
    the elapsed seconds raises [ZeroDivisionError]. *)
Theorem average_without_elapsed_time_raises (s : sensor) (t0 : Z) :
  (2 ≤ len s)%nat →
  ages s = replicate (len s) t0 →
  _stat_average_linear s = Raise ZeroDivisionError
  ∧ _stat_average_step s = Raise ZeroDivisionError
  ∧ _stat_binary_average_step s = Raise ZeroDivisionError.
Proof.
  intros Hn Hages.
  assert (Hlen : length (ages s) = len s)
    by (by rewrite Hages, length_replicate).
  assert (Heq : ∀ t, t ∈ ages s → t = t0)
    by (intros t; rewrite Hages; by intros [-> _]%elem_of_replicate).
  assert (Hrng : age_range_seconds s = Ok (total_seconds 0)).
  { apply (age_range_seconds_equal s t0); [|done].
    intros Hnil. rewrite Hnil in Hlen. simpl in Hlen. lia. }
  assert (Hst : ∀ i, i ∈ range 1 (len s) →
            (∃ x, getitem (states s) i = Ok x)
            ∧ (∃ x, getitem (states s) (i - 1) = Ok x)
            ∧ (∃ t, getitem (ages s) i = Ok t)
            ∧ (∃ t, getitem (ages s) (i - 1) = Ok t)).
  { intros i Hi%elem_of_range. unfold len in *.
    repeat split; apply getitem_in_range; lia. }
  unfold _stat_average_linear, _stat_average_step, _stat_binary_average_step.
  destruct (Nat.leb_spec 2 (len s)) as [_|]; [|lia].
  repeat split.
  - edestruct (for_each_returns (range 1 (len s)) 0%Q) as [area ->].
    { intros i acc ([x1 ->] & [x0 ->] & [t1 ->] & [t ->])%Hst. by eexists. }
    simpl. rewrite Hrng. reflexivity.
  - edestruct (for_each_returns (range 1 (len s)) 0%Q) as [area ->].
    { intros i acc ([x1 _] & [x0 ->] & [t1 ->] & [t ->])%Hst. by eexists. }
    simpl. rewrite Hrng. reflexivity.
  - edestruct (for_each_returns (range 1 (len s)) 0%Q) as [on_seconds ->].
    { intros i acc ([x1 _] & [x0 ->] & [t1 ->] & [t ->])%Hst. simpl.
      destruct (is_True x0); by eexists. }
    simpl. rewrite Hrng. reflexivity.
Qed.

(** ** The purge within a recompute *)

Lemma async_update_purged now s :
  ∃ r, purge_if_max_age now s = (r, (purge_if_max_age now s).2)
       ∧ same_buffer (purge_if_max_age now s).2 (async_update now s).2.
Proof.
  exists (purge_if_max_age now s).1. split; [by destruct (purge_if_max_age now s)|].
  unfold async_update, and_then at 1.
  destruct (purge_if_max_age now s) as [[[]|e] s1]; simpl.
  - apply publish_buffer.
  - apply same_buffer_refl.
Qed.

(** In a chronological buffer nothing is older than its first entry. *)
Lemma sorted_head_bound (ts : list Z) (bound : Z) :
  Sorted Z.le ts →
  (∀ t, head ts = Some t → bound ≤ t) →
  ∀ t, t ∈ ts → bound ≤ t.
Proof.
  intros Hs Hhead t Hin. destruct ts as [|t1 ts]; [by apply elem_of_nil in Hin|].
  apply Sorted_StronglySorted in Hs; [|intros ???; lia].
  apply StronglySorted_inv in Hs as [_ Hall].
  specialize (Hhead t1 eq_refl).
  apply elem_of_cons in Hin as [->|Hin]; [done|].
  rewrite Forall_forall in Hall. specialize (Hall t Hin). lia.
Qed.

Lemma Sorted_drop (ts : list Z) k : Sorted Z.le ts → Sorted Z.le (drop k ts).
Proof.
  intros Hs. apply Sorted_StronglySorted in Hs; [|intros ???; lia].
  apply StronglySorted_Sorted. revert k.
  induction Hs as [|t ts Hs IH Hall]; intros [|k]; simpl;
    [constructor | constructor | by constructor | apply IH].
Qed.

(** C4 (amended). With [max_age] configured, the purge that opens a
    recompute at time [now] removes a prefix of [k] aligned
    (value, timestamp) pairs: every removed timestamp is older than
    [max_age], and the first retained one is not, so the prefix is the
    longest such.  When the buffered timestamps are in chronological
    (non-decreasing) order, no retained sample is older than [max_age]
    after the recompute. *)
Theorem recompute_purges_oldest (s : sensor) (now max_age : Z) :
  _samples_max_age (cfg s) = Some max_age →
  length (states s) = length (ages s) →
  let s' := (async_update now s).2 in
  ∃ k : nat,
    ages s' = drop k (ages s)
    ∧ states s' = drop k (states s)
    ∧ (∀ t, t ∈ take k (ages s) → now - t > max_age)
    ∧ (∀ t, head (ages s') = Some t → now - t ≤ max_age)
    ∧ (Sorted Z.le (ages s) → ∀ t, t ∈ ages s' → now - t ≤ max_age).
Proof.
  intros Hage Hlen s'.
  destruct (async_update_purged now s) as (r & _ & (_ & Hst & Hag)).
  unfold purge_if_max_age in Hst, Hag. rewrite Hage in Hst, Hag.
  destruct (purge_old_states_spec now max_age s Hlen)
    as (k & Heq & Hk & Hdrop & Hkeep).
  rewrite Heq in Hst, Hag. simpl in Hst, Hag.
  exists k. subst s'. rewrite Hst, Hag. repeat split; try done.
  intros Hsorted t Hin.
  assert (now - max_age ≤ t); [|lia].
  apply (sorted_head_bound (drop k (ages s))); [by apply Sorted_drop | | done].
  intros t1 Ht1. specialize (Hkeep t1 Ht1). lia.
Qed.

(** ** Mean, median, variance *)

Lemma fold_left_Qplus (l : list Q) (a : Q) :
  (fold_left Qplus l a == a + Qsum l)%Q.
Proof.
  unfold Qsum. revert a. induction l as [|x l IH]; intros a; simpl.
  - ring.
  - rewrite (IH (a + x)%Q), (IH (0 + x)%Q). ring.
Qed.

Lemma Qsum_cons (x : Q) (l : list Q) : (Qsum (x :: l) == x + Qsum l)%Q.
Proof. unfold Qsum at 1. simpl. rewrite fold_left_Qplus. ring. Qed.













(** ** The recompute reads the buffer and the configuration only *)

Lemma state_characteristic_fn_ext s s' :
  same_buffer s s' → _state_characteristic_fn s' = _state_characteristic_fn s.
Proof.
  intros Hsame. same_buffer_subst s s' Hsame.
  unfold _state_characteristic_fn. simpl.
  destruct (is_binary c), (_state_characteristic c); reflexivity.
Qed.

Lemma update_attributes_again s s' :
  same_buffer s s' →
  attributes s' = attributes (_update_attributes s).2 →
  _update_attributes s' = ((_update_attributes s).1, s').
Proof.
  intros Hsame. same_buffer_subst s s' Hsame.
  unfold _update_attributes, len, age_range_seconds, set_attribute. simpl.
  repeat (case_match; simpl; try done);
    intros ->; f_equal; f_equal;
    rewrite ?insert_insert_eq; try done;
    apply map_eq; intros key; rewrite !lookup_insert;
    repeat case_decide; done.
Qed.

Lemma update_value_again s s' :
  same_buffer s s' →
  ((_update_value s).1 = Ok () → _value s' = _value (_update_value s).2) →
  _update_value s' = ((_update_value s).1, s').
Proof.
  intros Hsame Hval. unfold _update_value in *.
  rewrite (state_characteristic_fn_ext s s' Hsame).
  destruct Hsame as (-> & _ & _).
  destruct (_state_characteristic_fn s) as [value|e]; [|done].
  destruct (if negb _ then _ else _) as [value'|e]; [|done].
  simpl in *. rewrite <- (Hval eq_refl). by destruct s'.
Qed.

Lemma schedule_update_again s s' :
  same_buffer s s' →
  _update_listener s' = _update_listener (schedule_update s).2 →
  schedule_update s' = (Ok (), s').
Proof.
  intros Hsame. same_buffer_subst s s' Hsame.
  unfold schedule_update, _next_to_purge_timestamp. simpl.
  repeat (case_match; simpl; try done); by intros ->.
Qed.

Lemma purge_loop_stable now max_age ts xs :
  (∀ t, head ts = Some t → now - t ≤ max_age) →
  purge_loop now max_age ts xs = (Ok (), (ts, xs)).
Proof.
  intros Hhead. destruct ts as [|t ts]; [done|]. simpl.
  specialize (Hhead t eq_refl).
  destruct (Z.gtb_spec (now - t) max_age) as [|_]; [lia | done].
Qed.

Lemma purge_if_max_age_again now s s' :
  length (states s) = length (ages s) →
  same_buffer (purge_if_max_age now s).2 s' →
  (purge_if_max_age now s).1 = Ok () ∧ purge_if_max_age now s' = (Ok (), s').
Proof.
  intros Hlen. unfold purge_if_max_age.
  destruct (_samples_max_age (cfg s)) as [max_age|] eqn:Hage.
  - destruct (purge_old_states_spec now max_age s Hlen)
      as (k & -> & _ & _ & Hkeep).
    unfold same_buffer. simpl. intros (Hc & Hx & Ht). rewrite Hc, Hage. split; [done|].
    unfold _purge_old_states. rewrite purge_loop_stable.
    + by destruct s'.
    + by rewrite Ht.
  - unfold same_buffer. simpl. intros (Hc & _ & _). rewrite Hc, Hage. done.
Qed.

Lemma update_value_attributes s : attributes (_update_value s).2 = attributes s.
Proof. unfold _update_value. by repeat (case_match; simpl). Qed.

Lemma schedule_update_frame s :
  (schedule_update s).1 = Ok ()
  ∧ attributes (schedule_update s).2 = attributes s
  ∧ _value (schedule_update s).2 = _value s.
Proof. unfold schedule_update. by case_match. Qed.

Lemma and_then_unfold (m1 m2 : sensor → result unit * sensor) s :
  and_then m1 m2 s
  = match m1 s with
    | (Ok _, s') => m2 s'
    | (Raise e, s') => (Raise e, s')
    end.
Proof. reflexivity. Qed.

Lemma value_schedule_again s2 :
  let m := and_then _update_value schedule_update in
  m (m s2).2 = m s2 ∧ attributes (m s2).2 = attributes s2.
Proof.
  intros m. subst m. rewrite (and_then_unfold _ _ s2).
  pose proof (update_value_buffer s2) as Hb3.
  pose proof (update_value_attributes s2) as Hat3.
  pose proof (update_value_again s2) as Hv.
  destruct (_update_value s2) as [[[]|e] s3]; simpl in Hb3, Hat3, Hv.
  - pose proof (schedule_update_buffer s3) as Hb4.
    pose proof (schedule_update_frame s3) as (Hr4 & Hat4 & Hv4).
    pose proof (schedule_update_again s3) as Hs.
    destruct (schedule_update s3) as [r4 s4]; simpl in Hb4, Hr4, Hat4, Hv4, Hs.
    subst r4. simpl. split; [|congruence].
    rewrite and_then_unfold, (Hv s4 (same_buffer_trans _ _ _ Hb3 Hb4)) by done.
    by apply Hs.
  - simpl. split; [|done].
    rewrite and_then_unfold, (Hv s3 Hb3); [done|]. intros [=].
Qed.

Lemma publish_again s1 :
  let m := and_then _update_attributes
             (and_then _update_value schedule_update) in
  m (m s1).2 = m s1.
Proof.
  intros m. subst m. rewrite (and_then_unfold _ _ s1).
  pose proof (update_attributes_buffer s1) as Hb2.
  pose proof (update_attributes_again s1) as Ha.
  destruct (_update_attributes s1) as [[[]|e] s2]; simpl in Hb2, Ha.
  - destruct (value_schedule_again s2) as [Hagain Hattrs].
    assert (same_buffer s2 (and_then _update_value schedule_update s2).2) as Hb'.
    { apply and_then_buffer;
        [apply update_value_buffer | apply schedule_update_buffer]. }
    rewrite and_then_unfold.
    rewrite (Ha _ (same_buffer_trans _ _ _ Hb2 Hb') Hattrs). simpl.
    exact Hagain.
  - simpl. by rewrite and_then_unfold, (Ha s2 Hb2 eq_refl).
Qed.

(** A second recompute at the same time finds nothing left to do: it ends
    the same way and leaves the sensor as the first one did. *)
Lemma async_update_again now s :
  length (states s) = length (ages s) →
  async_update now (async_update now s).2 = async_update now s.
Proof.
  intros Hlen. unfold async_update. rewrite (and_then_unfold _ _ s).
  pose proof (purge_if_max_age_again now s) as Hp.
  destruct (purge_if_max_age now s) as [r s1]. simpl in Hp.
  destruct (Hp s1 Hlen (same_buffer_refl _)) as [-> _].
  rewrite and_then_unfold.
  destruct (Hp _ Hlen (publish_buffer s1)) as [_ ->].
  apply publish_again.
Qed.

(** C9. On every sensor reached from construction, recomputing twice at
    the same time, with nothing ingested in between, publishes the same
    snapshot (value, unit, availability and attributes) both times; the
    second recompute also ends the way the first did. *)
Theorem recompute_is_idempotent (c : config) (s0 : sensor)
    (ops : list operation) (now : Z) :
  StatisticsSensor c = Ok s0 →
  let first := async_update now (run ops s0) in
  let second := async_update now first.2 in
  snapshot_of second.2 = snapshot_of first.2 ∧ second.1 = first.1.
Proof.
  intros Hinit first second. subst first second.
  destruct (run_ok ops s0 (StatisticsSensor_ok c s0 Hinit)) as [Hlen _].
  by rewrite (async_update_again now (run ops s0) Hlen).
Qed.

(** ** The published value *)



(** The value a recompute that returns has published was computed by
    [_update_value] on a sensor holding the buffer the recompute leaves. *)
Lemma async_update_value now s s' :
  async_update now s = (Ok (), s') →
  ∃ s2 s3, same_buffer s2 s' ∧ _update_value s2 = (Ok (), s3)
           ∧ _value s' = _value s3.
Proof.
  unfold async_update. rewrite and_then_unfold.
  destruct (purge_if_max_age now s) as [[[]|e] s1]; [|done].
  rewrite and_then_unfold.
  destruct (_update_attributes s1) as [[[]|e] s2]; [|done].
  rewrite and_then_unfold.
  pose proof (update_value_buffer s2) as Hb3.
  destruct (_update_value s2) as [[[]|e] s3] eqn:Hv; [|done].
  pose proof (schedule_update_buffer s3) as Hb4.
  pose proof (schedule_update_frame s3) as (_ & _ & Hv4).
  intros Heq. rewrite Heq in Hb4, Hv4. simpl in *.
  exists s2, s3. repeat split; try done.
  all: destruct Hb3 as (? & ? & ?), Hb4 as (? & ? & ?); congruence.
Qed.



(** ** The bounded deques *)

Lemma deque_append_room {A} maxlen (l : list A) x :
  (length l < maxlen)%nat → deque_append maxlen l x = l ++ [x].
Proof.
  intros Hl. unfold deque_append. rewrite length_app. cbn [length].
  by replace (length l + 1 - maxlen)%nat with 0%nat by lia.
Qed.

Lemma deque_append_full {A} maxlen (l : list A) x :
  length l = maxlen → deque_append maxlen l x = drop 1 (l ++ [x]).
Proof.
  intros Hl. unfold deque_append. rewrite length_app. cbn [length].
  by replace (length l + 1 - maxlen)%nat with 1%nat by lia.
Qed.

(** X1. An admitted reading goes to the right end of both deques; when the
    buffer is full the oldest value and the oldest timestamp fall off the
    left end together. *)
Theorem admitted_reading_evicts_oldest (s : sensor) (new_state : State)
    (st : string) (x : sample) :
  state new_state = Some st →
  st ≠ STATE_UNAVAILABLE → st ≠ STATE_UNKNOWN →
  parsed (is_binary (cfg s)) st = Some x →
  buffer_ok s →
  let s' := (_add_state_to_queue new_state s).2 in
  if (len s <? _samples_max_buffer_size (cfg s))%nat
  then states s' = states s ++ [x]
       ∧ ages s' = ages s ++ [last_updated new_state]
  else states s' = drop 1 (states s ++ [x])
       ∧ ages s' = drop 1 (ages s ++ [last_updated new_state]).
Proof.
  intros Hst Hav Hk Hx [Hlen Hmax] s'.
  destruct (accepted_reading_appends s new_state st x Hst Hav Hk Hx)
    as (_ & Hxs & Hts & _).
  subst s'. rewrite Hxs, Hts. unfold len.
  destruct (Nat.ltb_spec (length (states s)) (_samples_max_buffer_size (cfg s))).
  - rewrite !deque_append_room by lia. done.
  - rewrite !deque_append_full by lia. done.
Qed.

(** ** Availability *)

(** X2. The availability of the sensor mirrors the source: a reading that
    signals unavailable makes the sensor unavailable, takes
    [source_value_valid] out of the published attributes and leaves the
    buffer and the value alone; any other reading, admitted or not, makes the
    sensor available. *)
Theorem availability_mirrors_source (s : sensor) (new_state : State) :
  let s' := (_add_state_to_queue new_state s).2 in
  if bool_decide (state new_state = Some STATE_UNAVAILABLE)
  then available (snapshot_of s') = false
       ∧ extra_state_attributes (snapshot_of s') !! STAT_SOURCE_VALUE_VALID = None
       ∧ states s' = states s ∧ ages s' = ages s
       ∧ native_value (snapshot_of s') = _value s
  else available (snapshot_of s') = true.
Proof.
  intros s'. subst s'. unfold _add_state_to_queue.
  destruct (bool_decide (state new_state = Some STATE_UNAVAILABLE)); simpl.
  - repeat split; try done.
    apply map_lookup_filter_None. right. intros v.
    rewrite lookup_insert_eq. by intros [= <-].
  - destruct (state new_state) as [st|]; [|done].
    destruct (bool_decide (st = STATE_UNKNOWN)); [done|].
    pose proof (append_parsed_cfg new_state st (set_available true s)) as Hc.
    assert (_available (append_parsed new_state st (set_available true s)).2 = true)
      as Ha by (unfold append_parsed; by repeat (case_match; simpl)).
    destruct (append_parsed new_state st (set_available true s)) as [[[]|e] s1];
      simpl in *.
    + by destruct (_derive_unit_of_measurement new_state s1).
    + by destruct e.
Qed.

(** ** Validation and construction *)


(** ** Purging again, later *)

Lemma purge_loop_later now1 now2 max_age (ts : list Z) (xs : list sample) :
  now1 ≤ now2 → length xs = length ts →
  purge_loop now2 max_age (purge_loop now1 max_age ts xs).2.1
                          (purge_loop now1 max_age ts xs).2.2
  = purge_loop now2 max_age ts xs.
Proof.
  intros Hnow. revert xs. induction ts as [|t ts IH]; intros xs Hlen.
  - by destruct xs.
  - destruct xs as [|x xs]; [done|]. cbn [purge_loop].
    destruct (Z.gtb_spec (now1 - t) max_age) as [Hold|Hyoung].
    + destruct (Z.gtb_spec (now2 - t) max_age) as [_|]; [|lia].
      apply IH. simpl in Hlen. lia.
    + reflexivity.
Qed.

(** X4. Purging at a time and again at a later one leaves what a single
    purge at the later time leaves. *)
Theorem purge_again_later (s : sensor) (now1 now2 max_age : Z) :
  now1 ≤ now2 →
  length (states s) = length (ages s) →
  _purge_old_states now2 max_age (_purge_old_states now1 max_age s).2
  = _purge_old_states now2 max_age s.
Proof.
  intros Hnow Hlen. unfold _purge_old_states.
  pose proof (purge_loop_later now1 now2 max_age (ages s) (states s) Hnow Hlen)
    as Hloop.
  destruct (purge_loop now1 max_age (ages s) (states s)) as [r1 [ts1 xs1]].
  simpl in *. rewrite Hloop.
  by destruct (purge_loop now2 max_age (ages s) (states s)) as [r2 [ts2 xs2]].
Qed.

(** ** The wake-up *)

Lemma update_attributes_listener s :
  _update_listener (_update_attributes s).2 = _update_listener s.
Proof. unfold _update_attributes. by repeat (case_match; simpl). Qed.

Lemma update_value_listener s :
  _update_listener (_update_value s).2 = _update_listener s.
Proof. unfold _update_value. by repeat (case_match; simpl). Qed.

(** X5. After a recompute that returns, with a non-zero [max_age] and a
    sample left in the buffer, the pending wake-up is at the expiry of the
    oldest retained sample, and that instant is not before the time of the
    recompute; with nothing left in the buffer the pending wake-up is left as
    it was. *)
Theorem wakeup_at_next_expiry (s s' : sensor) (now max_age : Z) :
  async_update now s = (Ok (), s') →
  length (states s) = length (ages s) →
  _samples_max_age (cfg s) = Some max_age →
  max_age ≠ 0 →
  match head (ages s') with
  | Some oldest =>
      _update_listener s' = Some (oldest + max_age) ∧ now ≤ oldest + max_age
  | None => _update_listener s' = _update_listener s
  end.
Proof.
  intros Hup Hlen Hage Hnz. revert Hup.
  unfold async_update. rewrite and_then_unfold.
  unfold purge_if_max_age. rewrite Hage.
  destruct (purge_old_states_spec now max_age s Hlen) as (k & -> & _ & _ & Hkeep).
  set (s1 := set_states _ _).
  rewrite and_then_unfold.
  pose proof (update_attributes_buffer s1) as Hb2.
  pose proof (update_attributes_listener s1) as Hl2.
  destruct (_update_attributes s1) as [[[]|e] s2]; [|done]. simpl in Hb2, Hl2.
  rewrite and_then_unfold.
  pose proof (update_value_buffer s2) as Hb3.
  pose proof (update_value_listener s2) as Hl3.
  destruct (_update_value s2) as [[[]|e] s3]; [|done]. simpl in Hb3, Hl3.
  destruct Hb2 as (Hc2 & _ & Ht2), Hb3 as (Hc3 & _ & Ht3).
  unfold schedule_update, _next_to_purge_timestamp.
  assert (ages s3 = drop k (ages s)) as Hages by (by rewrite Ht3, Ht2).
  assert (_samples_max_age (cfg s3) = Some max_age) as Hage3
    by (by rewrite Hc3, Hc2).
  rewrite Hages, Hage3.
  destruct (drop k (ages s)) as [|oldest ts] eqn:Hdrop.
  - intros [= <-]. rewrite Hages. simpl. by rewrite Hl3, Hl2.
  - destruct (Z.eqb_spec max_age 0) as [|_]; [done|].
    intros [= <-]. simpl. rewrite Hages. simpl.
    split; [done|]. specialize (Hkeep oldest eq_refl). lia.
Qed.

(** ** Start-up from the recorder *)

Lemma deque_append_newest {A} maxlen (l : list A) x :
  deque_append maxlen (newest maxlen l) x = newest maxlen (l ++ [x]).
Proof.
  unfold deque_append, newest.
  rewrite !length_app, length_drop. cbn [length].
  destruct (decide (length l ≤ maxlen)%nat) as [Hle|Hgt].
  - replace (length l - maxlen)%nat with 0%nat by lia. simpl.
    by replace (length l - 0 + 1 - maxlen)%nat
      with (length l + 1 - maxlen)%nat by lia.
  - rewrite <- (drop_app_le l [x]) by lia. rewrite drop_drop. f_equal. lia.
Qed.

(** A numeric sensor never raises on a reading: it appends the admitted
    ones and leaves the buffer alone on the others. *)
Lemma add_state_to_queue_numeric new_state s :
  is_binary (cfg s) = false →
  (_add_state_to_queue new_state s).1 = Ok ()
  ∧ states (_add_state_to_queue new_state s).2
    = match admitted new_state with
      | Some (x, _) => deque_append (_samples_max_buffer_size (cfg s)) (states s) x
      | None => states s
      end
  ∧ ages (_add_state_to_queue new_state s).2
    = match admitted new_state with
      | Some (_, t) => deque_append (_samples_max_buffer_size (cfg s)) (ages s) t
      | None => ages s
      end.
Proof.
  intros Hnum. unfold _add_state_to_queue, admitted.
  destruct (state new_state) as [st|]; simpl; [|done].
  case_bool_decide as Hu; simpl.
  { injection Hu as ->. by rewrite bool_decide_eq_true_2. }
  rewrite (bool_decide_eq_false_2 (st = STATE_UNAVAILABLE)) by (by intros ->).
  simpl. case_bool_decide as Hk; simpl; [done|].
  unfold append_parsed. simpl. rewrite Hnum.
  destruct (py_float st) as [q|]; simpl; [|done].
  set (s1 := set_attribute _ _ _).
  destruct (derive_unit_of_measurement_total new_state s) as [u Hu'].
  by rewrite (Hu' s1 eq_refl).
Qed.

Lemma replay_numeric history : ∀ s (xs : list sample) (ts : list Z),
  is_binary (cfg s) = false →
  states s = newest (_samples_max_buffer_size (cfg s)) xs →
  ages s = newest (_samples_max_buffer_size (cfg s)) ts →
  (replay history s).1 = Ok ()
  ∧ states (replay history s).2
    = newest (_samples_max_buffer_size (cfg s))
             (xs ++ (omap admitted history).*1)
  ∧ ages (replay history s).2
    = newest (_samples_max_buffer_size (cfg s))
             (ts ++ (omap admitted history).*2).
Proof.
  induction history as [|new_state history IH]; intros s xs ts Hnum Hxs Hts.
  - simpl. by rewrite !app_nil_r.
  - cbn [replay]. rewrite and_then_unfold.
    destruct (add_state_to_queue_numeric new_state s Hnum) as (Hr & Hx1 & Ht1).
    pose proof (add_state_to_queue_cfg new_state s) as Hc.
    destruct (_add_state_to_queue new_state s) as [r s1]. simpl in *. subst r.
    cbn [omap list_omap]. destruct (admitted new_state) as [[x t]|].
    + rewrite Hxs, deque_append_newest in Hx1.
      rewrite Hts, deque_append_newest in Ht1.
      rewrite <- Hc in Hx1, Ht1, Hnum.
      destruct (IH s1 _ _ Hnum Hx1 Ht1) as (-> & -> & ->).
      rewrite Hc. cbn [fmap list_fmap]. simpl.
      by rewrite <- !app_assoc.
    + rewrite <- Hc in Hnum. rewrite Hxs in Hx1. rewrite Hts in Ht1.
      rewrite <- Hc in Hx1, Ht1.
      destruct (IH s1 _ _ Hnum Hx1 Ht1) as (-> & -> & ->).
      by rewrite Hc.
Qed.

(** X6. Start-up of a numeric sensor from the recorder never fails, whatever
    the recorder returned: the readings that are admitted (neither
    unavailable nor unknown, with a value that parses) end up in the buffer
    oldest first, and when there are more of them than the buffer holds the
    newest are the ones kept. *)
Theorem initialize_numeric_from_database (c : config) (s0 : sensor)
    (fetched : list State) :
  StatisticsSensor c = Ok s0 →
  is_binary c = false →
  let s' := (_initialize_from_database fetched s0).2 in
  let kept := omap admitted (reverse fetched) in
  (_initialize_from_database fetched s0).1 = Ok ()
  ∧ states s' = newest (_samples_max_buffer_size c) kept.*1
  ∧ ages s' = newest (_samples_max_buffer_size c) kept.*2.
Proof.
  intros Hinit Hnum s' kept. subst s' kept. unfold _initialize_from_database.
  pose proof (StatisticsSensor_cfg c s0 Hinit) as Hc.
  assert (states s0 = [] ∧ ages s0 = []) as [Hx0 Ht0].
  { unfold StatisticsSensor in Hinit. case_match; [|done].
    by injection Hinit as <-. }
  rewrite <- Hc in *.
  destruct (replay_numeric (reverse fetched) s0 [] [] Hnum) as (Hr & Hx & Ht).
  - by rewrite Hx0.
  - by rewrite Ht0.
  - done.
Qed.

(** ** What a characteristic can raise *)

Lemma getitem_last_nonempty {A} (l : list A) :
  l ≠ [] → ∃ x, getitem_last l = Ok x ∧ last l = Some x.
Proof.
  intros Hne. unfold getitem_last.
  destruct (last l) as [x|] eqn:Hlast; [by exists x|].
  by apply last_None in Hlast.
Qed.

Lemma getitem_head_nonempty {A} (l : list A) :
  l ≠ [] → ∃ x, getitem l 0 = Ok x ∧ head l = Some x.
Proof. destruct l as [|x l]; [done|]. by exists x. Qed.

Lemma nonempty_of_length {A} (l : list A) : (0 < length l)%nat → l ≠ [].
Proof. by destruct l; [simpl; lia|]. Qed.

Lemma age_range_seconds_returns s :
  ages s ≠ [] →
  ∃ oldest newest_,
    head (ages s) = Some oldest ∧ last (ages s) = Some newest_
    ∧ age_range_seconds s = Ok (total_seconds (newest_ - oldest)).
Proof.
  intros Hne. unfold age_range_seconds.
  destruct (getitem_last_nonempty _ Hne) as (tn & -> & Hlast).
  destruct (getitem_head_nonempty _ Hne) as (t0 & -> & Hhead).
  by exists t0, tn.
Qed.







Lemma values_nonempty s : (0 < len s)%nat → values s ≠ [].
Proof. intros Hn. apply nonempty_of_length. by rewrite values_length. Qed.























(** ** What a recompute can raise *)






(** ** Extremes, mean and median *)

Lemma fold_max_spec (l : list Q) (x : Q) :
  let m := fold_left (λ m y, if Qle_bool y m then m else y) l x in
  m ∈ x :: l ∧ ∀ y, y ∈ x :: l → (y <= m)%Q.
Proof.
  revert x. induction l as [|z l IH]; intros x; simpl.
  - split; [by left|]. intros y Hy. apply list_elem_of_singleton in Hy as ->.
    apply Qle_refl.
  - destruct (IH (if Qle_bool z x then x else z)) as [Hin Hle].
    destruct (Qle_bool z x) eqn:Hzx.
    + apply Qle_bool_iff in Hzx. split.
      * apply elem_of_cons in Hin as [->|Hin]; [by left | by do 2 right].
      * intros y [->|[->|Hy]%elem_of_cons]%elem_of_cons.
        -- apply Hle. by left.
        -- eapply Qle_trans; [exact Hzx|]. apply Hle. by left.
        -- apply Hle. by right.
    + assert (x <= z)%Q as Hxz.
      { apply Qlt_le_weak, Qnot_le_lt. intros Hc.
        apply Qle_bool_iff in Hc. congruence. }
      split.
      * apply elem_of_cons in Hin as [->|Hin]; [right; by left | by do 2 right].
      * intros y [->|[->|Hy]%elem_of_cons]%elem_of_cons.
        -- eapply Qle_trans; [exact Hxz|]. apply Hle. by left.
        -- apply Hle. by left.
        -- apply Hle. by right.
Qed.

Lemma fold_min_spec (l : list Q) (x : Q) :
  let m := fold_left (λ m y, if Qle_bool m y then m else y) l x in
  m ∈ x :: l ∧ ∀ y, y ∈ x :: l → (m <= y)%Q.
Proof.
  revert x. induction l as [|z l IH]; intros x; simpl.
  - split; [by left|]. intros y Hy. apply list_elem_of_singleton in Hy as ->.
    apply Qle_refl.
  - destruct (IH (if Qle_bool x z then x else z)) as [Hin Hle].
    destruct (Qle_bool x z) eqn:Hxz.
    + apply Qle_bool_iff in Hxz. split.
      * apply elem_of_cons in Hin as [->|Hin]; [by left | by do 2 right].
      * intros y [->|[->|Hy]%elem_of_cons]%elem_of_cons.
        -- apply Hle. by left.
        -- eapply Qle_trans; [|exact Hxz]. apply Hle. by left.
        -- apply Hle. by right.
    + assert (z <= x)%Q as Hzx.
      { apply Qlt_le_weak, Qnot_le_lt. intros Hc.
        apply Qle_bool_iff in Hc. congruence. }
      split.
      * apply elem_of_cons in Hin as [->|Hin]; [right; by left | by do 2 right].
      * intros y [->|[->|Hy]%elem_of_cons]%elem_of_cons.
        -- eapply Qle_trans; [|exact Hzx]. apply Hle. by left.
        -- apply Hle. by left.
        -- apply Hle. by right.
Qed.

Lemma py_max_spec (l : list Q) :
  l ≠ [] → ∃ hi, py_max l = Ok hi ∧ hi ∈ l ∧ ∀ y, y ∈ l → (y <= hi)%Q.
Proof.
  destruct l as [|x l]; [done|]. intros _. eexists. split; [reflexivity|].
  apply fold_max_spec.
Qed.

Lemma py_min_spec (l : list Q) :
  l ≠ [] → ∃ lo, py_min l = Ok lo ∧ lo ∈ l ∧ ∀ y, y ∈ l → (lo <= y)%Q.
Proof.
  destruct l as [|x l]; [done|]. intros _. eexists. split; [reflexivity|].
  apply fold_min_spec.
Qed.

(** X9. On a non-empty buffer [value_min] and [value_max] are values of the
    buffer that bound every value of it, and [distance_absolute] is their
    difference, which is not negative. *)
Theorem extremes_bound_the_buffer (s : sensor) :
  (0 < len s)%nat →
  ∃ lo hi : Q,
    _stat_value_min s = Ok (PFloat lo) ∧ _stat_value_max s = Ok (PFloat hi)
    ∧ lo ∈ values s ∧ hi ∈ values s
    ∧ (∀ x, x ∈ values s → (lo <= x <= hi)%Q)
    ∧ _stat_distance_absolute s = Ok (PFloat (hi - lo))
    ∧ (0 <= hi - lo)%Q.
Proof.
  intros Hn. pose proof (values_nonempty s Hn) as Hne.
  destruct (py_max_spec _ Hne) as (hi & Hhi & Hhi_in & Hmax).
  destruct (py_min_spec _ Hne) as (lo & Hlo & Hlo_in & Hmin).
  exists lo, hi.
  unfold _stat_value_min, _stat_value_max, _stat_distance_absolute.
  destruct (Nat.ltb_spec 0 (len s)) as [_|]; [|lia].
  rewrite Hhi, Hlo. simpl. repeat split; try done; try by auto.
  specialize (Hmax lo Hlo_in). lra.
Qed.


Lemma count_positive (n : nat) : (0 < n)%nat → (0 < inject_Z (Z.of_nat n))%Q.
Proof. intros Hn. unfold Qlt. simpl. lia. Qed.





(** ** The variance *)




(** ** Change and noisiness *)








(** ** Time-weighted averages over a chronological buffer *)









Lemma total_seconds_pos (d : Z) : 0 < d → (0 < total_seconds d)%Q.
Proof. intros Hd. unfold total_seconds, Qlt. simpl. lia. Qed.



Lemma truediv_pos (a b : Q) : (0 < b)%Q → py_truediv a b = Ok (a / b)%Q.
Proof.
  intros Hb. unfold py_truediv. destruct (Qeq_bool b 0) eqn:Hz; [|done].
  apply Qeq_bool_eq in Hz. lra.
Qed.





Lemma quotient_within (area rng lo hi : Q) :
  (0 < rng)%Q → (lo * rng <= area <= hi * rng)%Q → (lo <= area / rng <= hi)%Q.
Proof.
  intros Hpos [Hlo Hhi]. split.
  - by apply Qle_shift_div_l.
  - by apply Qle_shift_div_r.
Qed.




(** ** The published count and the buffer usage *)

(** X17. With the [count] characteristic and a precision that is not
    negative, a recompute that returns publishes the number of samples it
    retained, as an int, also when that number is 0. *)
Theorem count_is_published_exactly (s s' : sensor) (now : Z) :
  async_update now s = (Ok (), s') →
  _state_characteristic (cfg s) = STAT_COUNT →
  0 ≤ _precision (cfg s) →
  _value s' = PInt (Z.of_nat (length (states s'))).
Proof.
  intros Hup Hcount Hprec.
  pose proof (async_update_cfg now s) as Hcfg. rewrite Hup in Hcfg. simpl in Hcfg.
  destruct (async_update_value now s s' Hup) as (s2 & s3 & Hb & Hv & ->).
  destruct Hb as (Hc & Hx & _). rewrite Hx. rewrite <- Hcfg, Hc in Hcount, Hprec.
  unfold _update_value, _state_characteristic_fn in Hv. rewrite Hcount in Hv.
  assert (round_value (PInt (Z.of_nat (len s2))) (_precision (cfg s2))
          = Ok (PInt (Z.of_nat (len s2)))) as Hround.
  { unfold round_value, py_round, round_int.
    destruct (Z.leb_spec 0 (_precision (cfg s2))) as [_|]; [|lia].
    by destruct (_precision (cfg s2) =? 0). }
  destruct (is_binary (cfg s2)); simpl in Hv;
    unfold _stat_binary_count, _stat_count in Hv; rewrite Hround in Hv;
    by injection Hv as <-.
Qed.

Lemma Qfloor_between (q : Q) (a b : Z) :
  (inject_Z a <= q <= inject_Z b)%Q → a ≤ Qfloor q ≤ b.
Proof.
  intros [Ha Hb]. split.
  - rewrite <- (Qfloor_Z a). by apply Qfloor_resp_le.
  - rewrite <- (Qfloor_Z b). by apply Qfloor_resp_le.
Qed.

(** Rounding to the nearest integer does not leave an interval with
    integer ends. *)
Lemma round_half_even_between (q : Q) (a b : Z) :
  (inject_Z a <= q <= inject_Z b)%Q → a ≤ round_half_even q ≤ b.
Proof.
  intros Hq. pose proof (Qfloor_between q a b Hq) as [Hfa Hfb].
  unfold round_half_even.
  assert (Qfloor q = b ∨ Qfloor q + 1 ≤ b) as [Heq|Hlt] by lia.
  - (* the floor is the upper end: q is that integer *)
    assert (q == inject_Z (Qfloor q))%Q as Hint.
    { apply Qle_antisym; [rewrite Heq; apply Hq | apply Qfloor_le]. }
    assert ((q - inject_Z (Qfloor q) ?= 1 # 2)%Q = Lt) as ->; [|lia].
    apply Qlt_alt. rewrite Hint at 1. 
    setoid_replace (inject_Z (Qfloor q) - inject_Z (Qfloor q))%Q with 0%Q
      using relation Qeq by ring. reflexivity.
  - destruct (q - inject_Z (Qfloor q) ?= 1 # 2)%Q; [|lia|lia].
    destruct (Z.even (Qfloor q)); lia.
Qed.

Lemma round_float_2_unit (q : Q) : (0 <= q <= 1)%Q → (0 <= round_float q 2 <= 1)%Q.
Proof.
  intros [Hlo Hhi]. unfold round_float.
  change (10 ^ 2)%Q with 100%Q.
  destruct (round_half_even_between (q * 100) 0 100) as [Hr0 Hr1].
  { change (inject_Z 0) with 0%Q. change (inject_Z 100) with 100%Q. split; lra. }
  set (r := round_half_even (q * 100)) in *.
  assert (0 <= inject_Z r <= 100)%Q as [? ?].
  { split; unfold Qle; simpl; lia. }
  apply quotient_within; [reflexivity|]. split; lra.
Qed.

Lemma usage_in_unit (n m : nat) (usage : Q) :
  (n ≤ m)%nat →
  py_truediv (inject_Z (Z.of_nat n)) (inject_Z (Z.of_nat m)) = Ok usage →
  (0 <= usage <= 1)%Q.
Proof.
  intros Hnm. unfold py_truediv.
  destruct (Qeq_bool (inject_Z (Z.of_nat m)) 0) eqn:Hz; [done|].
  intros [= <-].
  assert (0 < inject_Z (Z.of_nat m))%Q as Hpos.
  { apply count_positive. destruct m; [|lia]. by vm_compute in Hz. }
  assert (0 <= inject_Z (Z.of_nat n) <= inject_Z (Z.of_nat m))%Q as [? ?].
  { split; unfold Qle; simpl; lia. }
  apply quotient_within; [done|]. split; lra.
Qed.

Lemma update_attributes_usage s s' :
  buffer_ok s →
  _update_attributes s = (Ok (), s') →
  ∃ ratio : Q,
    attributes s' !! STAT_BUFFER_USAGE_RATIO = Some (PFloat ratio)
    ∧ (0 <= ratio <= 1)%Q.
Proof.
  intros [_ Hmax]. unfold _update_attributes.
  destruct (py_truediv _ _) as [usage|e] eqn:Husage; [|done].
  apply usage_in_unit in Husage; [|done].
  apply round_float_2_unit in Husage.
  set (s1 := set_attribute _ _ s).
  assert (∀ v, attributes (set_attribute STAT_AGE_COVERAGE_RATIO v s1)
                 !! STAT_BUFFER_USAGE_RATIO
               = Some (PFloat (round_float usage 2))) as Hkeep.
  { intros v. simpl. rewrite lookup_insert_ne by done. apply lookup_insert_eq. }
  destruct (_samples_max_age (cfg s1)) as [max_age|].
  - destruct (1 <=? len s1)%nat.
    + destruct (rbind _ _) as [coverage|e]; [|done].
      intros [= <-]. eexists. by split.
    + intros [= <-]. eexists. by split.
  - intros [= <-]. eexists. by split.
Qed.

(** X18. On a sensor reached from construction, a recompute that returns
    publishes a [buffer_usage_ratio] between 0 and 1. *)
Theorem buffer_usage_ratio_in_unit_interval (c : config) (s0 s' : sensor)
    (ops : list operation) (now : Z) :
  StatisticsSensor c = Ok s0 →
  async_update now (run ops s0) = (Ok (), s') →
  ∃ ratio : Q,
    extra_state_attributes (snapshot_of s') !! STAT_BUFFER_USAGE_RATIO
    = Some (PFloat ratio)
    ∧ (0 <= ratio <= 1)%Q.
Proof.
  intros Hinit.
  pose proof (run_ok ops s0 (StatisticsSensor_ok c s0 Hinit)) as Hok.
  set (s := run ops s0) in *.
  unfold async_update. rewrite and_then_unfold.
  pose proof (purge_if_max_age_ok now s Hok) as Hok1.
  destruct (purge_if_max_age now s) as [[[]|e] s1]; [|done]. simpl in Hok1.
  rewrite and_then_unfold.
  pose proof (update_attributes_usage s1) as Husage.
  destruct (_update_attributes s1) as [[[]|e] s2]; [|done].
  destruct (Husage s2 Hok1 eq_refl) as (ratio & Hratio & Hin).
  rewrite and_then_unfold.
  pose proof (update_value_attributes s2) as Hat3.
  destruct (_update_value s2) as [[[]|e] s3]; [|done]. simpl in Hat3.
  pose proof (schedule_update_frame s3) as (_ & Hat4 & _).
  intros Heq. rewrite Heq in Hat4. simpl in Hat4.
  exists ratio. split; [|done]. simpl.
  apply map_lookup_filter_Some. split; [|done]. congruence.
Qed.

(** ** The age coverage *)

Lemma Sorted_head_last (ts : list Z) (oldest newest_ : Z) :
  Sorted Z.le ts → head ts = Some oldest → last ts = Some newest_ →
  oldest ≤ newest_.
Proof.
  intros Hsorted Hhead Hlast.
  apply (sorted_head_bound ts oldest Hsorted).
  - intros t Ht. rewrite Hhead in Ht. injection Ht as ->. lia.
  - rewrite last_lookup in Hlast. by eapply list_elem_of_lookup_2.
Qed.

Lemma update_attributes_coverage s s' (now max_age : Z) :
  _update_attributes s = (Ok (), s') →
  _samples_max_age (cfg s) = Some max_age →
  0 < max_age →
  length (states s) = length (ages s) →
  Sorted Z.le (ages s) →
  (∀ t, t ∈ ages s → t ≤ now) →
  (∀ t, head (ages s) = Some t → now - t ≤ max_age) →
  match head (ages s) with
  | Some _ =>
      ∃ ratio : Q,
        attributes s' !! STAT_AGE_COVERAGE_RATIO = Some (PFloat ratio)
        ∧ (0 <= ratio <= 1)%Q
  | None => attributes s' !! STAT_AGE_COVERAGE_RATIO = Some PNone
  end.
Proof.
  intros Hrun Hage Hpos Hlen Hsorted Hpast Hyoung.
  unfold _update_attributes in Hrun.
  destruct (py_truediv (inject_Z (Z.of_nat (len s))) _) as [usage|e]; [|done].
  set (s1 := set_attribute _ _ s) in Hrun.
  change (_samples_max_age (cfg s1)) with (_samples_max_age (cfg s)) in Hrun.
  change (len s1) with (len s) in Hrun.
  rewrite Hage in Hrun.
  destruct (ages s) as [|oldest rest] eqn:Hages.
  { unfold len in Hrun. rewrite Hlen in Hrun. simpl in Hrun.
    injection Hrun as <-. simpl. apply lookup_insert_eq. }
  assert (ages s1 ≠ []) as Hne by (change (ages s1) with (ages s); by rewrite Hages).
  destruct (age_range_seconds_returns s1 Hne)
    as (oldest' & newest_ & Hhead & Hlast & Hrng).
  change (ages s1) with (ages s) in Hhead, Hlast. rewrite Hages in Hhead, Hlast.
  injection Hhead as <-.
  assert (oldest ≤ newest_) as Hle.
  { by apply (Sorted_head_last (oldest :: rest)). }
  assert (newest_ ≤ now) as Hnow.
  { apply Hpast. rewrite last_lookup in Hlast. by eapply list_elem_of_lookup_2. }
  specialize (Hyoung oldest eq_refl).
  assert ((1 <=? len s)%nat = true) as Hone.
  { apply Nat.leb_le. unfold len. rewrite Hlen. simpl. lia. }
  rewrite Hone, Hrng in Hrun. cbn [rbind] in Hrun.
  rewrite truediv_pos in Hrun by (apply total_seconds_pos; lia).
  injection Hrun as <-. simpl. rewrite lookup_insert_eq.
  eexists. split; [done|]. apply round_float_2_unit.
  apply quotient_within; [apply total_seconds_pos; lia|].
  unfold total_seconds, Qle. simpl. lia.
Qed.

(** X24. With a [max_age] above zero and timestamps in chronological order,
    none of them after the time of the recompute, a recompute that returns
    publishes an [age_coverage_ratio] between 0 and 1 when a sample is left
    in the buffer, and none when the buffer is empty. *)
Theorem age_coverage_ratio_in_unit_interval (s s' : sensor) (now max_age : Z) :
  async_update now s = (Ok (), s') →
  length (states s) = length (ages s) →
  _samples_max_age (cfg s) = Some max_age →
  0 < max_age →
  Sorted Z.le (ages s) →
  (∀ t, t ∈ ages s → t ≤ now) →
  match head (ages s') with
  | Some _ =>
      ∃ ratio : Q,
        extra_state_attributes (snapshot_of s') !! STAT_AGE_COVERAGE_RATIO
        = Some (PFloat ratio)
        ∧ (0 <= ratio <= 1)%Q
  | None =>
      extra_state_attributes (snapshot_of s') !! STAT_AGE_COVERAGE_RATIO = None
  end.
Proof.
  intros Hup Hlen Hage Hpos Hsorted Hpast.
  unfold async_update in Hup. rewrite and_then_unfold in Hup.
  unfold purge_if_max_age in Hup. rewrite Hage in Hup.
  destruct (purge_old_states_spec now max_age s Hlen)
    as (k & Hpurge & Hk & _ & Hyoung).
  rewrite Hpurge in Hup.
  set (s1 := set_states _ _) in Hup.
  rewrite and_then_unfold in Hup.
  pose proof (update_attributes_coverage s1) as Hcoverage.
  destruct (_update_attributes s1) as [[[]|e] s2] eqn:Hattrs; [|done].
  specialize (Hcoverage s2 now max_age eq_refl Hage Hpos).
  assert (ages s2 = drop k (ages s)) as Hages2.
  { pose proof (update_attributes_buffer s1) as (_ & _ & Ha).
    rewrite Hattrs in Ha. exact Ha. }
  rewrite and_then_unfold in Hup.
  pose proof (update_value_attributes s2) as Hat3.
  pose proof (update_value_buffer s2) as (_ & _ & Hages3).
  destruct (_update_value s2) as [[[]|e] s3]; [|done]. simpl in Hat3, Hages3.
  pose proof (schedule_update_frame s3) as (_ & Hat4 & _).
  pose proof (schedule_update_buffer s3) as (_ & _ & Hages4).
  rewrite Hup in Hat4, Hages4. simpl in Hat4, Hages4.
  rewrite Hages4, Hages3, Hages2.
  assert (match head (drop k (ages s)) with
          | Some _ =>
              ∃ ratio : Q,
                attributes s2 !! STAT_AGE_COVERAGE_RATIO = Some (PFloat ratio)
                ∧ (0 <= ratio <= 1)%Q
          | None => attributes s2 !! STAT_AGE_COVERAGE_RATIO = Some PNone
          end) as Hs2.
  { apply Hcoverage.
    - simpl. rewrite !length_drop. by rewrite Hlen.
    - by apply Sorted_drop.
    - intros t Ht. apply Hpast. simpl in Ht.
      rewrite <- (take_drop k (ages s)). apply elem_of_app. by right.
    - exact Hyoung. }
  destruct (head (drop k (ages s))).
  - destruct Hs2 as (ratio & Hratio & Hin). exists ratio. split; [|done].
    simpl. apply map_lookup_filter_Some. split; [|done]. congruence.
  - simpl. apply map_lookup_filter_None. right. intros v Hv.
    rewrite Hat4, Hat3, Hs2 in Hv. by injection Hv as <-.
Qed.

(** ** The wake-up *)

(** X25. A wake-up that runs after the expiry of the oldest sample takes at
    least that sample out of the buffer; one that runs at the expiry or
    before it takes nothing out: a sample is purged only when its age is
    strictly above [max_age]. *)
Theorem wakeup_purges_after_expiry (s : sensor) (now max_age oldest : Z) :
  length (states s) = length (ages s) →
  _samples_max_age (cfg s) = Some max_age →
  head (ages s) = Some oldest →
  let s' := (_scheduled_update now s).2 in
  if oldest + max_age <? now
  then ((length (ages s') < length (ages s))%nat
        ∧ (length (states s') < length (states s))%nat)
  else (ages s' = ages s ∧ states s' = states s).
Proof.
  intros Hlen Hage Hhead s'.
  set (s0 := set_update_listener None s).
  destruct (async_update_purged now s0) as (r & _ & _ & Hstates & Hages).
  subst s'. unfold _scheduled_update. fold s0.
  unfold purge_if_max_age in Hstates, Hages.
  change (_samples_max_age (cfg s0)) with (_samples_max_age (cfg s))
    in Hstates, Hages.
  rewrite Hage in Hstates, Hages.
  destruct (purge_old_states_spec now max_age s0 Hlen)
    as (k & Hpurge & Hk & Hold & Hyoung).
  rewrite Hpurge in Hstates, Hages. simpl in Hstates, Hages, Hold, Hyoung, Hk.
  rewrite Hstates, Hages.
  destruct (ages s) as [|t0 rest] eqn:Hts; [done|]. injection Hhead as ->.
  destruct (Z.ltb_spec (oldest + max_age) now) as [Hdue|Hearly].
  - destruct k as [|k].
    + specialize (Hyoung oldest eq_refl). lia.
    + rewrite !length_drop, Hlen. simpl. lia.
  - destruct k as [|k]; [done|].
    assert (now - oldest > max_age); [|lia].
    apply Hold. simpl. by left.
Qed.
End Sensor.

(** ** The characteristics at concrete buffers *)

Example change_5_2_9 :
  _stat_change (sensor_with (config_of false STAT_CHANGE None)
                            [SFloat 5; SFloat 2; SFloat 9] [0; 1; 2])
  = Ok (PFloat (9 - 5)).
Proof. reflexivity. Qed.

Example average_step_10_20 :
  match _stat_average_step
          (sensor_with (config_of false STAT_AVERAGE_STEP None)
                       [SFloat 10; SFloat 20] [0; 10000000]) with
  | Ok (PFloat v) => (v == 10)%Q
  | _ => False
  end.
Proof. reflexivity. Qed.

Example binary_mean_half :
  match _stat_binary_mean
          (sensor_with (config_of true STAT_MEAN None)
                       [SBool true; SBool true; SBool false; SBool false]
                       [0; 1; 2; 3]) with
  | Ok (PFloat v) => (v == 50)%Q
  | _ => False
  end.
Proof. reflexivity. Qed.

Example quantiles_of_four_samples :
  @_stat_quantiles eval_runtime
    (sensor_with (config_of false STAT_QUANTILES None)
                 (SFloat <$> [1; 2; 3; 4]%Q) [0; 1; 2; 3])
  = Ok PNone.
Proof. reflexivity. Qed.

(** ** The theorems at concrete sensors *)

Lemma average_without_elapsed_time_raises_witness :
  let s := sensor_with (config_of false STAT_AVERAGE_LINEAR None)
                       [SFloat 1; SFloat 2] [5; 5] in
  (2 ≤ len s)%nat ∧ ages s = replicate (len s) 5
  ∧ _stat_average_linear s = Raise ZeroDivisionError
  ∧ _stat_average_step s = Raise ZeroDivisionError
  ∧ _stat_binary_average_step s = Raise ZeroDivisionError.
Proof.
  intros s.
  assert (H2 : (2 ≤ len s)%nat) by (vm_compute; lia).
  assert (Hages : ages s = replicate (len s) 5) by reflexivity.
  split; [exact H2|]. split; [exact Hages|].
  exact (average_without_elapsed_time_raises s 5 H2 Hages).
Defined.

(** The exception leaves the recompute: nothing is published. *)
Example recompute_without_elapsed_time_raises :
  let s := sensor_with (config_of false STAT_AVERAGE_STEP None)
                       [SFloat 1; SFloat 2] [5; 5] in
  (@async_update eval_runtime 6 s).1 = Raise ZeroDivisionError
  ∧ _value (@async_update eval_runtime 6 s).2 = PNone.
Proof. vm_compute. by split. Qed.



Lemma buffers_aligned_and_bounded_witness :
  let c := config_of false STAT_MEAN (Some 20000000) in
  let s0 := sensor_with c [] [] in
  let ops := [Ingest (reading "1" 0); Ingest (reading "x" 1);
              Ingest (reading "3" 2); Purge 21500000; Update 30000000] in
  @StatisticsSensor eval_runtime c = Ok s0
  ∧ length (states (@run eval_runtime ops s0))
    = length (ages (@run eval_runtime ops s0))
  ∧ (length (states (@run eval_runtime ops s0)) ≤ 20)%nat.
Proof.
  intros c s0 ops.
  assert (Hinit : @StatisticsSensor eval_runtime c = Ok s0) by reflexivity.
  split; [exact Hinit|].
  exact (@buffers_aligned_and_bounded eval_runtime c s0 ops Hinit).
Defined.

Lemma rejected_reading_keeps_value_and_unit_witness :
  let s := sensor_with (config_of false STAT_MEAN None) [SFloat 1] [0] in
  let new_state := reading "abc" 1 in
  let s' := (@_add_state_to_queue eval_runtime new_state s).2 in
  @rejected eval_runtime false new_state
  ∧ _value s' = PNone ∧ _unit_of_measurement s' = None
  ∧ states s' = [SFloat 1] ∧ ages s' = [0].
Proof.
  intros s new_state s'.
  assert (Hrej : @rejected eval_runtime (is_binary (cfg s)) new_state)
    by (right; right; reflexivity).
  split; [exact Hrej|].
  exact (@rejected_reading_keeps_value_and_unit eval_runtime s new_state Hrej).
Defined.

Lemma recompute_purges_oldest_witness :
  let s := sensor_with (config_of false STAT_MEAN (Some 20000000))
                       [SFloat 1; SFloat 2; SFloat 3]
                       [0; 5000000; 100000000] in
  let s' := (@async_update eval_runtime 110000000 s).2 in
  _samples_max_age (cfg s) = Some 20000000
  ∧ length (states s) = length (ages s)
  ∧ ∃ k : nat,
      ages s' = drop k (ages s)
      ∧ states s' = drop k (states s)
      ∧ (∀ t, t ∈ take k (ages s) → 110000000 - t > 20000000)
      ∧ (∀ t, head (ages s') = Some t → 110000000 - t ≤ 20000000)
      ∧ (Sorted Z.le (ages s) → ∀ t, t ∈ ages s' → 110000000 - t ≤ 20000000).
Proof.
  intros s s'.
  assert (Hage : _samples_max_age (cfg s) = Some 20000000) by reflexivity.
  assert (Hlen : length (states s) = length (ages s)) by reflexivity.
  split; [exact Hage|]. split; [exact Hlen|].
  exact (@recompute_purges_oldest eval_runtime s 110000000 20000000 Hage Hlen).
Defined.

(** C4, as first stated, fails when timestamps arrive out of order: the
    purge stops at the first entry that is young enough, and an older entry
    behind it is retained. *)
Lemma recompute_retains_old_sample_behind_young :
  let c := config_of false STAT_MEAN (Some 20000000) in
  let ops := [Ingest (reading "10" 100); Ingest (reading "20" 5); Update 110000000] in
  ∃ s0, @StatisticsSensor eval_runtime c = Ok s0
        ∧ ages (@run eval_runtime ops s0) = [100000000; 5000000]
        ∧ 5000000 ∈ ages (@run eval_runtime ops s0)
        ∧ 110000000 - 5000000 > 20000000.
Proof.
  eexists. split; [reflexivity|].
  split; [vm_compute; reflexivity|].
  split; [|lia].
  replace (ages _) with [100000000; 5000000] by (vm_compute; reflexivity).
  apply elem_of_cons. right. apply elem_of_cons. by left.
Qed.




(** C7, as first stated, fails on an empty declared unit: it is treated as
    absent, so the mean of a numeric source gets no unit rather than the
    empty one, and the variance no unit rather than "²". *)
Lemma empty_unit_is_dropped :
  let new_state := {| state := Some "1"; last_updated := 0;
                      unit_of_measurement := Some "" |} in
  let mean := sensor_with (config_of false STAT_MEAN None) [] [] in
  let variance := sensor_with (config_of false STAT_VARIANCE None) [] [] in
  _derive_unit_of_measurement new_state mean = Ok None
  ∧ _derive_unit_of_measurement new_state mean
    ≠ Ok (specified_unit false STAT_MEAN (unit_of_measurement new_state))
  ∧ _derive_unit_of_measurement new_state variance = Ok None
  ∧ _derive_unit_of_measurement new_state variance
    ≠ Ok (specified_unit false STAT_VARIANCE (unit_of_measurement new_state)).
Proof. repeat split; discriminate. Qed.


Lemma recompute_is_idempotent_witness :
  let c := config_of false STAT_MEAN (Some 20000000) in
  let s0 := sensor_with c [] [] in
  let ops := [Ingest (reading "1" 0); Ingest (reading "2" 10); Ingest (reading "4" 30)] in
  let first := @async_update eval_runtime 35000000 (@run eval_runtime ops s0) in
  let second := @async_update eval_runtime 35000000 first.2 in
  @StatisticsSensor eval_runtime c = Ok s0
  ∧ snapshot_of second.2 = snapshot_of first.2 ∧ second.1 = first.1.
Proof.
  intros c s0 ops first second.
  assert (Hinit : @StatisticsSensor eval_runtime c = Ok s0) by reflexivity.
  split; [exact Hinit|].
  exact (@recompute_is_idempotent eval_runtime c s0 ops 35000000 Hinit).
Defined.

(** ** The further properties at concrete sensors *)

(** They are evaluated on [eval_runtime]. *)
#[local] Existing Instance eval_runtime.

Lemma admitted_reading_evicts_oldest_witness :
  let c := {| is_binary := false; _state_characteristic := STAT_MEAN;
              _samples_max_buffer_size := 2; _samples_max_age := None;
              _precision := 2; _quantile_intervals := 4;
              _quantile_method := exclusive |} in
  let s := sensor_with c [SFloat 1; SFloat 2] [0; 1000000] in
  let new_state := reading "3" 2 in
  let s' := (_add_state_to_queue new_state s).2 in
  parsed false "3" = Some (SFloat 3)
  ∧ buffer_ok s
  ∧ states s' = [SFloat 2; SFloat 3] ∧ ages s' = [1000000; 2000000].
Proof.
  intros c s new_state s'.
  assert (Hp : parsed (is_binary (cfg s)) "3" = Some (SFloat 3))
    by reflexivity.
  assert (Hok : buffer_ok s) by (split; [reflexivity | vm_compute; lia]).
  assert (Hu1 : "3" ≠ STATE_UNAVAILABLE) by (vm_compute; discriminate).
  assert (Hu2 : "3" ≠ STATE_UNKNOWN) by (vm_compute; discriminate).
  split; [exact Hp|]. split; [exact Hok|].
  exact (admitted_reading_evicts_oldest s new_state "3" (SFloat 3)
           eq_refl Hu1 Hu2 Hp Hok).
Defined.

Lemma purge_again_later_witness :
  let s := sensor_with (config_of false STAT_MEAN (Some 20000000))
                       [SFloat 1; SFloat 2; SFloat 3]
                       [0; 5000000; 100000000] in
  22000000 ≤ 110000000
  ∧ length (states s) = length (ages s)
  ∧ _purge_old_states 110000000 20000000
      (_purge_old_states 22000000 20000000 s).2
    = _purge_old_states 110000000 20000000 s.
Proof.
  intros s.
  assert (Hnow : 22000000 ≤ 110000000) by lia.
  assert (Hlen : length (states s) = length (ages s)) by reflexivity.
  split; [exact Hnow|]. split; [exact Hlen|].
  exact (purge_again_later s 22000000 110000000 20000000 Hnow Hlen).
Defined.

Lemma wakeup_at_next_expiry_witness :
  let s := sensor_with (config_of false STAT_MEAN (Some 20000000))
                       [SFloat 1; SFloat 2; SFloat 3]
                       [0; 95000000; 100000000] in
  let s' := (async_update 110000000 s).2 in
  async_update 110000000 s = (Ok (), s')
  ∧ length (states s) = length (ages s)
  ∧ _samples_max_age (cfg s) = Some 20000000
  ∧ 20000000 ≠ 0
  ∧ _update_listener s' = Some (95000000 + 20000000)
  ∧ 110000000 ≤ 95000000 + 20000000.
Proof.
  intros s s'.
  assert (Hup : async_update 110000000 s = (Ok (), s'))
    by (vm_compute; reflexivity).
  assert (Hlen : length (states s) = length (ages s)) by reflexivity.
  assert (Hage : _samples_max_age (cfg s) = Some 20000000) by reflexivity.
  assert (Hnz : 20000000 ≠ 0) by lia.
  split; [exact Hup|]. split; [exact Hlen|]. split; [exact Hage|].
  split; [exact Hnz|].
  exact (wakeup_at_next_expiry s s' 110000000 20000000
           Hup Hlen Hage Hnz).
Defined.

Lemma initialize_numeric_from_database_witness :
  let c := {| is_binary := false; _state_characteristic := STAT_MEAN;
              _samples_max_buffer_size := 2; _samples_max_age := None;
              _precision := 2; _quantile_intervals := 4;
              _quantile_method := exclusive |} in
  let s0 := sensor_with c [] [] in
  let fetched := [reading "3" 3; reading STATE_UNKNOWN 2; reading "2" 1;
                  reading "1" 0] in
  let s' := (_initialize_from_database fetched s0).2 in
  StatisticsSensor c = Ok s0
  ∧ is_binary c = false
  ∧ (_initialize_from_database fetched s0).1 = Ok ()
  ∧ states s' = [SFloat 2; SFloat 3]
  ∧ ages s' = [1000000; 3000000].
Proof.
  intros c s0 fetched s'.
  assert (Hinit : StatisticsSensor c = Ok s0) by reflexivity.
  assert (Hnum : is_binary c = false) by reflexivity.
  split; [exact Hinit|]. split; [exact Hnum|].
  exact (initialize_numeric_from_database c s0 fetched Hinit Hnum).
Defined.



Lemma extremes_bound_the_buffer_witness :
  let s := sensor_with (config_of false STAT_VALUE_MAX None)
                       [SFloat 5; SFloat 2; SFloat 9] [0; 1; 2] in
  (0 < len s)%nat
  ∧ ∃ lo hi : Q,
      _stat_value_min s = Ok (PFloat lo)
      ∧ _stat_value_max s = Ok (PFloat hi)
      ∧ lo ∈ values s ∧ hi ∈ values s
      ∧ (∀ x, x ∈ values s → (lo <= x <= hi)%Q)
      ∧ _stat_distance_absolute s = Ok (PFloat (hi - lo))
      ∧ (0 <= hi - lo)%Q.
Proof.
  intros s.
  assert (Hn : (0 < len s)%nat) by (vm_compute; lia).
  split; [exact Hn|].
  exact (extremes_bound_the_buffer s Hn).
Defined.








Lemma count_is_published_exactly_witness :
  let s := sensor_with (config_of false STAT_COUNT (Some 20000000))
                       [SFloat 1; SFloat 2; SFloat 3]
                       [0; 95000000; 100000000] in
  let s' := (async_update 110000000 s).2 in
  async_update 110000000 s = (Ok (), s')
  ∧ _state_characteristic (cfg s) = STAT_COUNT
  ∧ 0 ≤ _precision (cfg s)
  ∧ _value s' = PInt (Z.of_nat (length (states s'))).
Proof.
  intros s s'.
  assert (Hup : async_update 110000000 s = (Ok (), s'))
    by (vm_compute; reflexivity).
  assert (Hcount : _state_characteristic (cfg s) = STAT_COUNT) by reflexivity.
  assert (Hprec : 0 ≤ _precision (cfg s)) by (vm_compute; discriminate).
  split; [exact Hup|]. split; [exact Hcount|]. split; [exact Hprec|].
  exact (count_is_published_exactly s s' 110000000 Hup Hcount Hprec).
Defined.

Lemma buffer_usage_ratio_in_unit_interval_witness :
  let c := config_of false STAT_MEAN (Some 20000000) in
  let s0 := sensor_with c [] [] in
  let ops := [Ingest (reading "1" 0); Ingest (reading "2" 10);
              Ingest (reading "4" 30)] in
  let s' := (async_update 35000000 (run ops s0)).2 in
  StatisticsSensor c = Ok s0
  ∧ async_update 35000000 (run ops s0) = (Ok (), s')
  ∧ ∃ ratio : Q,
      extra_state_attributes (snapshot_of s') !! STAT_BUFFER_USAGE_RATIO
      = Some (PFloat ratio)
      ∧ (0 <= ratio <= 1)%Q.
Proof.
  intros c s0 ops s'.
  assert (Hinit : StatisticsSensor c = Ok s0) by reflexivity.
  assert (Hup : async_update 35000000 (run ops s0) = (Ok (), s'))
    by (vm_compute; reflexivity).
  split; [exact Hinit|]. split; [exact Hup|].
  exact (buffer_usage_ratio_in_unit_interval c s0 s' ops 35000000 Hinit Hup).
Defined.

Lemma age_coverage_ratio_in_unit_interval_witness :
  let s := sensor_with (config_of false STAT_MEAN (Some 20000000))
                       [SFloat 1; SFloat 2; SFloat 3]
                       [0; 95000000; 100000000] in
  let s' := (async_update 110000000 s).2 in
  async_update 110000000 s = (Ok (), s')
  ∧ length (states s) = length (ages s)
  ∧ _samples_max_age (cfg s) = Some 20000000
  ∧ 0 < 20000000
  ∧ Sorted Z.le (ages s)
  ∧ (∀ t, t ∈ ages s → t ≤ 110000000)
  ∧ ∃ ratio : Q,
      extra_state_attributes (snapshot_of s') !! STAT_AGE_COVERAGE_RATIO
      = Some (PFloat ratio)
      ∧ (0 <= ratio <= 1)%Q.
Proof.
  intros s s'.
  assert (Hup : async_update 110000000 s = (Ok (), s'))
    by (vm_compute; reflexivity).
  assert (Hlen : length (states s) = length (ages s)) by reflexivity.
  assert (Hage : _samples_max_age (cfg s) = Some 20000000) by reflexivity.
  assert (Hpos : 0 < 20000000) by lia.
  assert (Hsorted : Sorted Z.le (ages s)).
  { repeat first [apply Sorted_cons | apply Sorted_nil
                  | apply HdRel_cons | apply HdRel_nil | lia]. }
  assert (Hpast : ∀ t, t ∈ ages s → t ≤ 110000000).
  { intros t Ht.
    repeat (apply elem_of_cons in Ht as [->|Ht]; [lia|]).
    by apply elem_of_nil in Ht. }
  split; [exact Hup|]. split; [exact Hlen|]. split; [exact Hage|].
  split; [exact Hpos|]. split; [exact Hsorted|]. split; [exact Hpast|].
  exact (age_coverage_ratio_in_unit_interval s s' 110000000 20000000
           Hup Hlen Hage Hpos Hsorted Hpast).
Defined.

Lemma wakeup_purges_after_expiry_witness :
  let s := sensor_with (config_of false STAT_MEAN (Some 20000000))
                       [SFloat 1; SFloat 2; SFloat 3]
                       [0; 95000000; 100000000] in
  let s' := (_scheduled_update 20000001 s).2 in
  length (states s) = length (ages s)
  ∧ _samples_max_age (cfg s) = Some 20000000
  ∧ head (ages s) = Some 0
  ∧ (length (ages s') < length (ages s))%nat
  ∧ (length (states s') < length (states s))%nat.
Proof.
  intros s s'.
  assert (Hlen : length (states s) = length (ages s)) by reflexivity.
  assert (Hage : _samples_max_age (cfg s) = Some 20000000) by reflexivity.
  assert (Hhead : head (ages s) = Some 0) by reflexivity.
  split; [exact Hlen|]. split; [exact Hage|]. split; [exact Hhead|].
  exact (wakeup_purges_after_expiry s 20000001 20000000 0 Hlen Hage Hhead).
Defined.


(** * Properties of the Tibber sensors *)

Module TibberProperties.
Import Tibber.

(** ** Statistics rows *)

Lemma statistics_rows_spec parse_datetime sensor_type last_stats_time :
  ∀ hourly _sum rows,
    statistics_rows parse_datetime sensor_type last_stats_time _sum hourly
    = Returns rows →
    running _sum rows
    ∧ Forall (λ row, ∀ last, last_stats_time = Some last →
                     ∃ t, start row = Some t ∧ last < t) rows
    ∧ (length rows ≤ length hourly)%nat.
Proof.
  induction hourly as [|data rest IH]; intros _sum rows Hrows;
    cbn [statistics_rows] in Hrows.
  { injection Hrows as <-. by repeat split. }
  destruct data as [| | | | |d]; try done.
  assert (∀ rows', statistics_rows parse_datetime sensor_type last_stats_time
                     _sum rest = Returns rows' →
                   running _sum rows'
                   ∧ Forall (λ row, ∀ last, last_stats_time = Some last →
                               ∃ t, start row = Some t ∧ last < t) rows'
                   ∧ (length rows' ≤ length (JDict d :: rest))%nat) as Hskip.
  { intros rows' Hrows'. destruct (IH _ _ Hrows') as (? & ? & ?).
    repeat split; [done | done | simpl; lia]. }
  assert (∀ value,
            match item d "from" with
            | None => Raises KeyError
            | Some (JStr from) =>
                match
                  match last_stats_time, parse_datetime from with
                  | None, _ => Returns false
                  | Some _, None => Raises TypeError
                  | Some last, Some t => Returns (t <=? last)
                  end
                with
                | Raises e => Raises e
                | Returns true =>
                    statistics_rows parse_datetime sensor_type last_stats_time
                                    _sum rest
                | Returns false =>
                    match number value with
                    | None => Raises TypeError
                    | Some x =>
                        match statistics_rows parse_datetime sensor_type
                                last_stats_time (_sum + x)%Q rest with
                        | Raises e => Raises e
                        | Returns statistics =>
                            Returns ({| start := parse_datetime from;
                                        state := value;
                                        sum := (_sum + x)%Q |} :: statistics)
                        end
                    end
                end
            | Some _ => Raises TypeError
            end = Returns rows →
            running _sum rows
            ∧ Forall (λ row, ∀ last, last_stats_time = Some last →
                        ∃ t, start row = Some t ∧ last < t) rows
            ∧ (length rows ≤ length (JDict d :: rest))%nat) as Hvalue.
  { intros value Hvalue.
    destruct (item d "from") as [[| | |from| |]|]; try done.
    assert ((∃ x rows',
              number value = Some x
              ∧ statistics_rows parse_datetime sensor_type last_stats_time
                  (_sum + x)%Q rest = Returns rows'
              ∧ rows = {| start := parse_datetime from; state := value;
                          sum := (_sum + x)%Q |} :: rows'
              ∧ (∀ last, last_stats_time = Some last →
                         ∃ t, parse_datetime from = Some t ∧ last < t))
            ∨ statistics_rows parse_datetime sensor_type last_stats_time
                _sum rest = Returns rows) as [(x & rows' & Hx & Hrest & -> & Hafter)|Hskipped].
    { destruct last_stats_time as [last|].
      - destruct (parse_datetime from) as [t|]; [|done].
        destruct (Z.leb_spec t last) as [Hle|Hgt]; [by right|].
        destruct (number value) as [x|]; [|done].
        destruct (statistics_rows _ _ _ (_sum + x)%Q rest) as [rows'|e] eqn:Hrest;
          [|done].
        injection Hvalue as <-. left. exists x, rows'.
        repeat split; try done. intros last' [= <-]. by exists t.
      - destruct (number value) as [x|]; [|done].
        destruct (statistics_rows _ _ _ (_sum + x)%Q rest) as [rows'|e] eqn:Hrest;
          [|done].
        injection Hvalue as <-. left. exists x, rows'.
        repeat split; done. }
    - destruct (IH _ _ Hrest) as (Hrun & Hall & Hlen).
      split; [split; [by exists x | done]|].
      split; [by constructor | simpl; lia].
    - by apply Hskip. }
  destruct (get d sensor_type) as [|b|q|str|l|d'].
  - by apply Hskip.
  - exact (Hvalue (JBool b) Hrows).
  - exact (Hvalue (JNum q) Hrows).
  - exact (Hvalue (JStr str) Hrows).
  - exact (Hvalue (JList l) Hrows).
  - exact (Hvalue (JDict d') Hrows).
Qed.

Lemma running_sum_at (rows : list StatisticData) : ∀ (_sum : Q) (i : nat) row,
  running _sum rows → rows !! i = Some row →
  (sum row == _sum + Qsum (row_number <$> take (S i) rows))%Q.
Proof.
  induction rows as [|first rest IH]; intros _sum i row Hrun Hrow; [done|].
  destruct Hrun as [(x & Hx & Hsum) Hrest].
  assert (row_number first = x) as Hfirst by (unfold row_number; by rewrite Hx).
  cbn [take fmap list_fmap]. rewrite Qsum_cons, Hfirst.
  destruct i as [|i].
  - injection Hrow as <-. rewrite Hsum, take_0, fmap_nil.
    unfold Qsum. cbn [fold_left]. ring.
  - rewrite (IH (sum first) i row Hrest Hrow), Hsum.
    change (list_fmap _ _ row_number (take (S i) rest))
      with (row_number <$> take (S i) rest). ring.
Qed.

(** X19. When the loop of [_insert_statistics] returns, the [sum] of every
    row it produced is the running sum it started from plus the states of
    the rows up to and including that row; and it produces at most one row
    per hourly entry. *)
Theorem statistics_rows_carry_running_sum
    (parse_datetime : string → option Z) (sensor_type : string)
    (last_stats_time : option Z) (_sum : Q) (hourly : list json)
    (rows : list StatisticData) :
  statistics_rows parse_datetime sensor_type last_stats_time _sum hourly
  = Returns rows →
  (length rows ≤ length hourly)%nat
  ∧ ∀ (i : nat) (row : StatisticData),
      rows !! i = Some row →
      number (state row) = Some (row_number row)
      ∧ (sum row == _sum + Qsum (row_number <$> take (S i) rows))%Q.
Proof.
  intros Hrows.
  destruct (statistics_rows_spec _ _ _ _ _ _ Hrows) as (Hrun & _ & Hlen).
  split; [done|]. intros i row Hrow. split.
  - clear Hrows Hlen. revert _sum i Hrun Hrow.
    induction rows as [|first rest IH]; intros _sum i Hrun Hrow; [done|].
    destruct Hrun as [(x & Hx & _) Hrest]. destruct i as [|i].
    + injection Hrow as <-. unfold row_number. by rewrite Hx.
    + by apply (IH (sum first) i).
  - by apply running_sum_at.
Qed.

(** X20. When statistics exist already, every row the loop of
    [_insert_statistics] produces starts strictly after the last one
    recorded: nothing at or before [last_stats_time] is written again. *)
Theorem statistics_rows_start_after_last
    (parse_datetime : string → option Z) (sensor_type : string)
    (last : Z) (_sum : Q) (hourly : list json) (rows : list StatisticData) :
  statistics_rows parse_datetime sensor_type (Some last) _sum hourly
  = Returns rows →
  ∀ row, row ∈ rows → ∃ t, start row = Some t ∧ last < t.
Proof.
  intros Hrows row Hrow.
  destruct (statistics_rows_spec _ _ _ _ _ _ Hrows) as (_ & Hafter & _).
  rewrite Forall_forall in Hafter. by apply (Hafter row Hrow last).
Qed.

(** ** The real-time coordinator *)

Lemma RT_SENSORS_keys_NoDup : NoDup (key <$> RT_SENSORS).
Proof. refine (bool_decide_unpack _ _). by vm_compute. Qed.

Lemma added_no_keys (added : gset string) :
  added = added ∪ list_to_set (keys []).
Proof. unfold keys. simpl. by rewrite (right_id_L ∅ (∪)). Qed.

Lemma add_sensors_loop_spec (descriptions : list description) :
  ∀ live new_entities added,
    NoDup (key <$> descriptions) →
    match add_sensors_loop descriptions live new_entities added with
    | (Returns entities, added') =>
        ∃ created,
          entities = new_entities ++ created
          ∧ NoDup (keys created)
          ∧ (∀ e, e ∈ created →
                  entity_description e ∈ descriptions
                  ∧ (key (entity_description e) ∉ added)
                  ∧ _attr_native_value e ≠ JNull
                  ∧ ∃ d, live = JDict d
                         ∧ get d (key (entity_description e))
                           = _attr_native_value e)
          ∧ added' = added ∪ list_to_set (keys created)
    | (Raises e, added') => added' = added ∧ ∀ d, live ≠ JDict d
    end.
Proof.
  induction descriptions as [|desc rest IH]; intros live new_entities added Hnodup.
  { simpl. exists []. rewrite app_nil_r.
    split; [done|]. split; [apply NoDup_nil_2|].
    split; [by intros e ?%elem_of_nil | apply added_no_keys]. }
  rewrite fmap_cons in Hnodup. apply NoDup_cons in Hnodup as [Hfresh Hnodup].
  assert (match add_sensors_loop rest live new_entities added with
          | (Returns entities, added') =>
              ∃ created,
                entities = new_entities ++ created
                ∧ NoDup (keys created)
                ∧ (∀ e, e ∈ created →
                        entity_description e ∈ desc :: rest
                        ∧ (key (entity_description e) ∉ added)
                        ∧ _attr_native_value e ≠ JNull
                        ∧ ∃ d, live = JDict d
                               ∧ get d (key (entity_description e))
                                 = _attr_native_value e)
                ∧ added' = added ∪ list_to_set (keys created)
          | (Raises e, added') => added' = added ∧ ∀ d, live ≠ JDict d
          end) as Hskip.
  { specialize (IH live new_entities added Hnodup).
    destruct (add_sensors_loop rest live new_entities added) as [[entities|e] added'];
      [|done].
    destruct IH as (created & -> & Hnd & Hall & ->).
    exists created. split; [done|]. split; [done|]. split; [|done].
    intros e He. destruct (Hall e He) as (Hin & Hnot & Hval & Hget).
    split; [by right|done]. }
  cbn [add_sensors_loop]. case_bool_decide as Hadded; [done|].
  destruct live as [| | | | |d]; try done.
  assert (∀ state, state ≠ JNull → get d (key desc) = state →
    match add_sensors_loop rest (JDict d)
            (new_entities ++ [{| entity_description := desc;
                                 _attr_native_value := state;
                                 _attr_last_reset := None |}])
            ({[key desc]} ∪ added) with
    | (Returns entities, added') =>
        ∃ created,
          entities = new_entities ++ created
          ∧ NoDup (keys created)
          ∧ (∀ e, e ∈ created →
                  entity_description e ∈ desc :: rest
                  ∧ (key (entity_description e) ∉ added)
                  ∧ _attr_native_value e ≠ JNull
                  ∧ ∃ d0, JDict d = JDict d0
                          ∧ get d0 (key (entity_description e))
                            = _attr_native_value e)
          ∧ added' = added ∪ list_to_set (keys created)
    | (Raises e, added') => added' = added ∧ ∀ d0, JDict d ≠ JDict d0
    end) as Hadd.
  { intros state Hstate Hget.
    specialize (IH (JDict d)
                  (new_entities ++ [{| entity_description := desc;
                                       _attr_native_value := state;
                                       _attr_last_reset := None |}])
                  ({[key desc]} ∪ added) Hnodup).
    destruct (add_sensors_loop rest (JDict d) _ _) as [[entities|e] added'].
    - destruct IH as (created & -> & Hnd & Hall & ->).
      exists ({| entity_description := desc; _attr_native_value := state;
                 _attr_last_reset := None |} :: created).
      split; [by rewrite <- app_assoc|]. split; [|split].
      + unfold keys. rewrite fmap_cons. apply NoDup_cons. split; [|done].
        simpl. intros (e & Hk & He)%list_elem_of_fmap.
        destruct (Hall e He) as (_ & Hnot & _). apply Hnot. rewrite <- Hk.
        apply elem_of_union_l. by apply elem_of_singleton.
      + intros e He. apply elem_of_cons in He as [->|He].
        * simpl. split; [by left|]. split; [done|]. split; [done|].
          by exists d.
        * destruct (Hall e He) as (Hin & Hnot & Hval & Hd).
          split; [by right|]. split; [|by split].
          intros Hk. apply Hnot. by apply elem_of_union_r.
      + unfold keys. rewrite fmap_cons, list_to_set_cons. simpl.
        by rewrite (assoc_L (∪)), (comm_L (∪) added).
    - (* the loop raises on a live measurement that is no dict only *)
      destruct IH as [_ Hno]. by destruct (Hno d). }
  destruct (get d (key desc)) as [|b|q|str|l|d'] eqn:Hget;
    [done | by apply Hadd..].
Qed.
Lemma add_sensors_spec (data : json) (added : gset string) :
  match _add_sensors data added with
  | (Returns created, added') =>
      NoDup (keys created)
      ∧ (∀ e, e ∈ created →
              entity_description e ∈ RT_SENSORS
              ∧ (key (entity_description e) ∉ added)
              ∧ _attr_native_value e ≠ JNull)
      ∧ added' = added ∪ list_to_set (keys created)
  | (Raises e, added') => added' = added
  end.
Proof.
  unfold _add_sensors. destruct (get_live_measurement data) as [live|e]; [|done].
  destruct (truthy live).
  - pose proof (add_sensors_loop_spec RT_SENSORS live [] added
                  RT_SENSORS_keys_NoDup) as Hloop.
    destruct (add_sensors_loop RT_SENSORS live [] added) as [[entities|e] added'].
    + destruct Hloop as (created & -> & Hnd & Hall & ->). simpl.
      split; [done|]. split; [|done].
      intros e He. destruct (Hall e He) as (Hin & Hnot & Hval & _). done.
    + by destruct Hloop.
  - split; [apply NoDup_nil_2|]. split; [by intros e ?%elem_of_nil|].
    apply added_no_keys.
Qed.

Lemma keys_app (l k : list TibberSensorRT) : keys (l ++ k) = keys l ++ keys k.
Proof. unfold keys. apply fmap_app. Qed.

Lemma pushes_spec (series : list json) :
  ∀ added created added',
    pushes series added = (created, added') →
    NoDup (keys created)
    ∧ (∀ e, e ∈ created →
            entity_description e ∈ RT_SENSORS
            ∧ (key (entity_description e) ∉ added)
            ∧ _attr_native_value e ≠ JNull)
    ∧ added' = added ∪ list_to_set (keys created).
Proof.
  induction series as [|data series IH]; intros added created added' Hpushes.
  { simpl in Hpushes. injection Hpushes as <- <-.
    split; [apply NoDup_nil_2|]. split; [by intros e ?%elem_of_nil|].
    apply added_no_keys. }
  cbn [pushes] in Hpushes.
  pose proof (add_sensors_spec data added) as Hfirst.
  destruct (_add_sensors data added) as [r added1].
  destruct (pushes series added1) as [later added2] eqn:Hlater.
  injection Hpushes as <- <-.
  destruct (IH _ _ _ Hlater) as (Hnd2 & Hall2 & Hadded2).
  destruct r as [first|e].
  - destruct Hfirst as (Hnd1 & Hall1 & ->).
    rewrite keys_app. split; [|split].
    + apply NoDup_app. split; [done|]. split; [|done].
      intros k Hk1 (e & -> & He)%list_elem_of_fmap.
      destruct (Hall2 e He) as (_ & Hnot & _). apply Hnot.
      apply elem_of_union_r. by apply elem_of_list_to_set.
    + intros e [He|He]%elem_of_app; [by apply Hall1|].
      destruct (Hall2 e He) as (Hin & Hnot & Hval).
      split; [done|]. split; [|done].
      intros Hk. apply Hnot. by apply elem_of_union_l.
    + rewrite Hadded2, list_to_set_app_L. by rewrite (assoc_L (∪)).
  - subst added1. by rewrite app_nil_l.
Qed.

(** X21.  Over any series of pushed data, the coordinator creates every
    real-time sensor at most once: the entities handed over have pairwise
    different keys, each one has a description of [RT_SENSORS] whose key was
    not added before and starts from a value that is not [None];
    [_added_sensors] grows by exactly their keys, and there are never more
    entities than descriptions. *)
Theorem rt_sensors_are_created_once
    (series : list json) (_added_sensors : gset string)
    (created : list TibberSensorRT) (added : gset string) :
  pushes series _added_sensors = (created, added) →
  NoDup (keys created)
  ∧ (∀ e, e ∈ created →
          entity_description e ∈ RT_SENSORS
          ∧ (key (entity_description e) ∉ _added_sensors)
          ∧ _attr_native_value e ≠ JNull)
  ∧ added = _added_sensors ∪ list_to_set (keys created)
  ∧ (length created ≤ length RT_SENSORS)%nat.
Proof.
  intros Hpushes.
  destruct (pushes_spec _ _ _ _ Hpushes) as (Hnd & Hall & Hadded).
  split; [done|]. split; [done|]. split; [done|].
  assert (length (keys created) ≤ length (key <$> RT_SENSORS))%nat as Hlen.
  { apply submseteq_length, NoDup_submseteq; [done|].
    intros k (e & -> & He)%list_elem_of_fmap.
    apply list_elem_of_fmap. exists (entity_description e).
    split; [done|]. by destruct (Hall e He). }
  unfold keys in Hlen. by rewrite !length_fmap in Hlen.
Qed.

(** ** The real-time sensor *)

Lemma microseconds_per_day_positive : (0 < microseconds_per_day)%Z.
Proof. by vm_compute. Qed.

Lemma midnight_utc_spec (t : datetime) :
  (midnight_utc t ≤ instant t < midnight_utc t + microseconds_per_day)%Z
  ∧ time_of_day {| instant := midnight_utc t; utcoffset := utcoffset t |} = 0%Z.
Proof.
  pose proof microseconds_per_day_positive as Hday.
  unfold midnight_utc, time_of_day. simpl.
  pose proof (Z.mod_pos_bound (instant t + utcoffset t) _ Hday) as Hbound.
  split; [lia|].
  replace (instant t - (instant t + utcoffset t) `mod` microseconds_per_day
           + utcoffset t)%Z
    with (microseconds_per_day
          * ((instant t + utcoffset t) `div` microseconds_per_day))%Z.
  - rewrite Z.mul_comm. apply Z.mod_mul. lia.
  - pose proof (Z.div_mod (instant t + utcoffset t) microseconds_per_day).
    lia.
Qed.

(** X22.  [_handle_coordinator_update] never changes the description of the
    sensor, and it moves [last_reset] only on one of the two accumulated
    keys, on a live measurement whose timestamp parses, when there was no
    [last_reset] yet or the value fell below half of the published one at
    hour 0 or more than 24 hours after the last reset.  The new
    [last_reset] is then the local midnight before the timestamp: at most
    a day before it, at time 00:00:00 in the timezone of the timestamp. *)
Theorem last_reset_moves_to_local_midnight
    (parse_datetime : string → option datetime) (data : json)
    (self : TibberSensorRT) (r : outcome unit) (self' : TibberSensorRT) :
  _handle_coordinator_update parse_datetime data self = (r, self') →
  entity_description self' = entity_description self
  ∧ (_attr_last_reset self' = _attr_last_reset self
     ∨ ∃ live timestamp ts_local,
         get_live_measurement data = Returns (JDict live)
         ∧ item live "timestamp" = Some (JStr timestamp)
         ∧ parse_datetime timestamp = Some ts_local
         ∧ (key (entity_description self) = "accumulatedConsumption"
            ∨ key (entity_description self) = "accumulatedProduction")
         ∧ (_attr_last_reset self = None
            ∨ ∃ last,
                _attr_last_reset self = Some last
                ∧ below_half (get live (key (entity_description self)))
                             (_attr_native_value self) = Returns true
                ∧ (hour ts_local = 0
                   ∨ 24 * microseconds_per_hour < instant ts_local - last)%Z)
         ∧ _attr_last_reset self' = Some (midnight_utc ts_local)
         ∧ (midnight_utc ts_local ≤ instant ts_local
            < midnight_utc ts_local + microseconds_per_day)%Z
         ∧ time_of_day {| instant := midnight_utc ts_local;
                          utcoffset := utcoffset ts_local |} = 0%Z).
Proof.
  unfold _handle_coordinator_update.
  destruct (get_live_measurement data) as [live_measurement|e] eqn:Hlive;
    [|intros [= <- <-]; by split; [|left]].
  destruct (negb (truthy live_measurement));
    [intros [= <- <-]; by split; [|left]|].
  destruct live_measurement as [| | | | |live];
    try (intros [= <- <-]; by split; [|left]).
  set (k := key (entity_description self)).
  assert (∀ state,
    (let reset : outcome (option Z) :=
       if bool_decide (k = "accumulatedConsumption")
          || bool_decide (k = "accumulatedProduction")
       then
         match item live "timestamp" with
         | None => Raises KeyError
         | Some (JStr timestamp) =>
             match parse_datetime timestamp with
             | None => Returns (_attr_last_reset self)
             | Some ts_local =>
                 match resets (_attr_last_reset self) state
                              (_attr_native_value self) ts_local with
                 | Raises e => Raises e
                 | Returns true => Returns (Some (midnight_utc ts_local))
                 | Returns false => Returns (_attr_last_reset self)
                 end
             end
         | Some _ => Raises TypeError
         end
       else Returns (_attr_last_reset self) in
     match reset with
     | Raises e => (Raises e, self)
     | Returns last_reset =>
         let self0 :=
           {| entity_description := entity_description self;
              _attr_native_value := _attr_native_value self;
              _attr_last_reset := last_reset |} in
         let scaled : outcome json :=
           if bool_decide (k = "powerFactor") then
             match number state with
             | Some x => Returns (JNum (x * 100))
             | None => Raises TypeError
             end
           else Returns state in
         match scaled with
         | Raises e => (Raises e, self0)
         | Returns state0 =>
             (Returns (),
              {| entity_description := entity_description self0;
                 _attr_native_value := state0;
                 _attr_last_reset := _attr_last_reset self0 |})
         end
     end) = (r, self') →
    get live k = state →
    entity_description self' = entity_description self
    ∧ (_attr_last_reset self' = _attr_last_reset self
       ∨ ∃ live0 timestamp ts_local,
           Returns (JDict live) = Returns (JDict live0)
           ∧ item live0 "timestamp" = Some (JStr timestamp)
           ∧ parse_datetime timestamp = Some ts_local
           ∧ (k = "accumulatedConsumption" ∨ k = "accumulatedProduction")
           ∧ (_attr_last_reset self = None
              ∨ ∃ last,
                  _attr_last_reset self = Some last
                  ∧ below_half (get live0 k) (_attr_native_value self)
                    = Returns true
                  ∧ (hour ts_local = 0
                     ∨ 24 * microseconds_per_hour < instant ts_local - last)%Z)
           ∧ _attr_last_reset self' = Some (midnight_utc ts_local)
           ∧ (midnight_utc ts_local ≤ instant ts_local
              < midnight_utc ts_local + microseconds_per_day)%Z
           ∧ time_of_day {| instant := midnight_utc ts_local;
                            utcoffset := utcoffset ts_local |} = 0%Z))
    as Hstate.
  { intros state Hrun Hget. cbv zeta in Hrun.
    assert (∀ last_reset,
      (_attr_last_reset self = last_reset
       ∨ ∃ timestamp ts_local,
           item live "timestamp" = Some (JStr timestamp)
           ∧ parse_datetime timestamp = Some ts_local
           ∧ (k = "accumulatedConsumption" ∨ k = "accumulatedProduction")
           ∧ resets (_attr_last_reset self) state (_attr_native_value self)
                    ts_local = Returns true
           ∧ last_reset = Some (midnight_utc ts_local)) →
      match
        (if bool_decide (k = "powerFactor") then
           match number state with
           | Some x => Returns (JNum (x * 100))
           | None => Raises TypeError
           end
         else Returns state) with
      | Raises e =>
          (Raises e,
           {| entity_description := entity_description self;
              _attr_native_value := _attr_native_value self;
              _attr_last_reset := last_reset |})
      | Returns state0 =>
          (Returns (),
           {| entity_description := entity_description self;
              _attr_native_value := state0;
              _attr_last_reset := last_reset |})
      end = (r, self') →
      entity_description self' = entity_description self
      ∧ (_attr_last_reset self' = _attr_last_reset self
         ∨ ∃ live0 timestamp ts_local,
             Returns (JDict live) = Returns (JDict live0)
             ∧ item live0 "timestamp" = Some (JStr timestamp)
             ∧ parse_datetime timestamp = Some ts_local
             ∧ (k = "accumulatedConsumption" ∨ k = "accumulatedProduction")
             ∧ (_attr_last_reset self = None
                ∨ ∃ last,
                    _attr_last_reset self = Some last
                    ∧ below_half (get live0 k) (_attr_native_value self)
                      = Returns true
                    ∧ (hour ts_local = 0
                       ∨ 24 * microseconds_per_hour
                         < instant ts_local - last)%Z)
             ∧ _attr_last_reset self' = Some (midnight_utc ts_local)
             ∧ (midnight_utc ts_local ≤ instant ts_local
                < midnight_utc ts_local + microseconds_per_day)%Z
             ∧ time_of_day {| instant := midnight_utc ts_local;
                              utcoffset := utcoffset ts_local |} = 0%Z))
      as Hscaled.
    { intros last_reset Hreset Hout.
      assert (entity_description self' = entity_description self
              ∧ _attr_last_reset self' = last_reset) as [Hdesc Hlast].
      { destruct (bool_decide (k = "powerFactor"));
          [destruct (number state)|]; by injection Hout as <- <-. }
      split; [done|]. rewrite Hlast.
      destruct Hreset as [<-|(timestamp & ts_local & Hts & Hparse & Hkey
                              & Hresets & ->)]; [by left|].
      right. exists live, timestamp, ts_local.
      split; [done|]. split; [done|]. split; [done|]. split; [done|].
      split; [|split; [done|apply midnight_utc_spec]].
      unfold resets in Hresets.
      destruct (_attr_last_reset self) as [last|]; [|by left].
      right. exists last. split; [done|]. rewrite Hget.
      destruct (below_half state (_attr_native_value self)) as [[|]|e];
        [|done..].
      split; [done|]. injection Hresets as Hresets.
      apply orb_true_iff in Hresets as [Hhour|Hlate].
      - left. by apply bool_decide_eq_true in Hhour.
      - right. by apply Z.gtb_lt in Hlate. }
    destruct (bool_decide (k = "accumulatedConsumption")
              || bool_decide (k = "accumulatedProduction")) eqn:Hkey.
    - assert (k = "accumulatedConsumption" ∨ k = "accumulatedProduction")
        as Hk.
      { apply orb_true_iff in Hkey as [Hkey|Hkey];
          apply bool_decide_eq_true in Hkey; [by left|by right]. }
      destruct (item live "timestamp") as [[| | |timestamp| |]|] eqn:Hts;
        try (injection Hrun as <- <-; by split; [|left]).
      destruct (parse_datetime timestamp) as [ts_local|] eqn:Hparse;
        [|by apply (Hscaled (_attr_last_reset self)); [left|]].
      destruct (resets (_attr_last_reset self) state (_attr_native_value self)
                       ts_local) as [[|]|e] eqn:Hresets.
      + apply (Hscaled (Some (midnight_utc ts_local))); [|done].
        right. by exists timestamp, ts_local.
      + by apply (Hscaled (_attr_last_reset self)); [left|].
      + injection Hrun as <- <-. by split; [|left].
    - by apply (Hscaled (_attr_last_reset self)); [left|]. }
  destruct (get live k) as [|b|q|str|l|d'] eqn:Hget;
    [intros [= <- <-]; by split; [|left]|..];
    intros Hrun; by apply (Hstate _ Hrun).
Qed.

(** X23.  [_handle_coordinator_update] changes the sensor only when the data
    report no error and their live measurement holds a value for the key of
    the sensor; in particular an error reported by the API, an empty live
    measurement or a measurement without the key leaves the published value
    and [last_reset] as they were. *)
Theorem sensor_changes_only_on_a_value
    (parse_datetime : string → option datetime) (data : json)
    (self : TibberSensorRT) :
  (_handle_coordinator_update parse_datetime data self).2 ≠ self →
  ∃ d live,
    data = JDict d
    ∧ truthy (get d "errors") = false
    ∧ get_live_measurement data = Returns (JDict live)
    ∧ get live (key (entity_description self)) ≠ JNull.
Proof.
  unfold _handle_coordinator_update.
  destruct (get_live_measurement data) as [live_measurement|e] eqn:Hlive;
    [|done].
  destruct (negb (truthy live_measurement)); [done|].
  destruct live_measurement as [| | | | |live]; try done.
  intros Hchanged.
  destruct data as [| | | | |d]; try done.
  exists d, live. split; [done|].
  split.
  { unfold get_live_measurement in Hlive.
    destruct (truthy (get d "errors")); [|done].
    by destruct (first_error (get d "errors")). }
  split; [done|].
  intros Hnull. by rewrite Hnull in Hchanged.
Qed.

(** ** The properties at concrete data *)

Lemma statistics_rows_carry_running_sum_witness :
  let hourly :=
    [JDict [("from", JStr "1"); ("consumption", JNum 2)];
     JDict [("from", JStr "2"); ("consumption", JNull)];
     JDict [("from", JStr "3"); ("consumption", JNum 3)]] in
  let rows :=
    [{| start := Some microseconds_per_hour; state := JNum 2; sum := 10 + 2 |};
     {| start := Some (3 * microseconds_per_hour); state := JNum 3;
        sum := 10 + 2 + 3 |}] in
  statistics_rows hours_utc "consumption" None 10 hourly = Returns rows
  ∧ (length rows ≤ length hourly)%nat
  ∧ ∀ (i : nat) (row : StatisticData),
      rows !! i = Some row →
      number (state row) = Some (row_number row)
      ∧ (sum row == 10 + Qsum (row_number <$> take (S i) rows))%Q.
Proof.
  intros hourly rows.
  assert (Hrows : statistics_rows hours_utc "consumption" None 10 hourly
                  = Returns rows) by reflexivity.
  split; [exact Hrows|].
  exact (statistics_rows_carry_running_sum hours_utc "consumption" None 10
           hourly rows Hrows).
Defined.

Lemma statistics_rows_start_after_last_witness :
  let hourly :=
    [JDict [("from", JStr "1"); ("totalCost", JNum 2)];
     JDict [("from", JStr "2"); ("totalCost", JNum 5)];
     JDict [("from", JStr "3"); ("totalCost", JNum 3)]] in
  let last := (2 * microseconds_per_hour)%Z in
  let rows :=
    [{| start := Some (3 * microseconds_per_hour); state := JNum 3;
        sum := 7 + 3 |}] in
  statistics_rows hours_utc "totalCost" (Some last) 7 hourly = Returns rows
  ∧ ∀ row, row ∈ rows → ∃ t, start row = Some t ∧ last < t.
Proof.
  intros hourly last rows.
  assert (Hrows : statistics_rows hours_utc "totalCost" (Some last) 7 hourly
                  = Returns rows) by reflexivity.
  split; [exact Hrows|].
  exact (statistics_rows_start_after_last hours_utc "totalCost" last 7
           hourly rows Hrows).
Defined.

Lemma rt_sensors_are_created_once_witness :
  let push (live : list (string * json)) :=
    JDict [("data", JDict [("liveMeasurement", JDict live)])] in
  let series :=
    [push [("power", JNum 100); ("voltagePhase1", JNull)];
     JDict [("errors", JList [JStr "timeout"])];
     push [("power", JNum 120); ("voltagePhase1", JNum 230)]] in
  let created := (pushes series ∅).1 in
  let added := (pushes series ∅).2 in
  keys created = ["power"; "voltagePhase1"]
  ∧ pushes series ∅ = (created, added)
  ∧ NoDup (keys created)
  ∧ (∀ e, e ∈ created →
          entity_description e ∈ RT_SENSORS
          ∧ (key (entity_description e) ∉ (∅ : gset string))
          ∧ _attr_native_value e ≠ JNull)
  ∧ added = ∅ ∪ list_to_set (keys created)
  ∧ (length created ≤ length RT_SENSORS)%nat.
Proof.
  intros push series created added.
  assert (Hkeys : keys created = ["power"; "voltagePhase1"])
    by (vm_compute; reflexivity).
  assert (Hpushes : pushes series ∅ = (created, added))
    by (vm_compute; reflexivity).
  split; [exact Hkeys|]. split; [exact Hpushes|].
  exact (rt_sensors_are_created_once series ∅ created added Hpushes).
Defined.

Lemma last_reset_moves_to_local_midnight_witness :
  let data :=
    JDict [("data",
            JDict [("liveMeasurement",
                    JDict [("timestamp", JStr "51");
                           ("accumulatedConsumption", JNum 1)])])] in
  let self :=
    {| entity_description := {| key := "accumulatedConsumption";
                                name := "accumulated consumption" |};
       _attr_native_value := JNum 12;
       _attr_last_reset := Some (22 * microseconds_per_hour) |} in
  let r := (_handle_coordinator_update (hours_local 2) data self).1 in
  let self' := (_handle_coordinator_update (hours_local 2) data self).2 in
  _attr_last_reset self' = Some (46 * microseconds_per_hour)
  ∧ _attr_native_value self' = JNum 1
  ∧ _handle_coordinator_update (hours_local 2) data self = (r, self')
  ∧ entity_description self' = entity_description self
  ∧ (_attr_last_reset self' = _attr_last_reset self
     ∨ ∃ live timestamp ts_local,
         get_live_measurement data = Returns (JDict live)
         ∧ item live "timestamp" = Some (JStr timestamp)
         ∧ hours_local 2 timestamp = Some ts_local
         ∧ (key (entity_description self) = "accumulatedConsumption"
            ∨ key (entity_description self) = "accumulatedProduction")
         ∧ (_attr_last_reset self = None
            ∨ ∃ last,
                _attr_last_reset self = Some last
                ∧ below_half (get live (key (entity_description self)))
                             (_attr_native_value self) = Returns true
                ∧ (hour ts_local = 0
                   ∨ 24 * microseconds_per_hour < instant ts_local - last)%Z)
         ∧ _attr_last_reset self' = Some (midnight_utc ts_local)
         ∧ (midnight_utc ts_local ≤ instant ts_local
            < midnight_utc ts_local + microseconds_per_day)%Z
         ∧ time_of_day {| instant := midnight_utc ts_local;
                          utcoffset := utcoffset ts_local |} = 0%Z).
Proof.
  intros data self r self'.
  assert (Hreset : _attr_last_reset self' = Some (46 * microseconds_per_hour))
    by (vm_compute; reflexivity).
  assert (Hvalue : _attr_native_value self' = JNum 1) by reflexivity.
  assert (Hrun : _handle_coordinator_update (hours_local 2) data self
                 = (r, self')) by reflexivity.
  split; [exact Hreset|]. split; [exact Hvalue|]. split; [exact Hrun|].
  exact (last_reset_moves_to_local_midnight (hours_local 2) data self r self'
           Hrun).
Defined.

Lemma sensor_changes_only_on_a_value_witness :
  let data :=
    JDict [("data",
            JDict [("liveMeasurement", JDict [("powerFactor", JNum (9 # 10))])])] in
  let self :=
    {| entity_description := {| key := "powerFactor"; name := "power factor" |};
       _attr_native_value := JNum 80;
       _attr_last_reset := None |} in
  (_handle_coordinator_update (hours_local 0) data self).2 ≠ self
  ∧ ∃ d live,
      data = JDict d
      ∧ truthy (get d "errors") = false
      ∧ get_live_measurement data = Returns (JDict live)
      ∧ get live (key (entity_description self)) ≠ JNull.
Proof.
  intros data self.
  assert (Hchanged : (_handle_coordinator_update (hours_local 0) data self).2
                     ≠ self) by (vm_compute; discriminate).
  split; [exact Hchanged|].
  exact (sensor_changes_only_on_a_value (hours_local 0) data self Hchanged).
Defined.

End TibberProperties.
